(** * Content generator front end: response normalisation and rendering

    A shallow embedding of the two components that decide what the
    content generator shows:

    - [content-generator-form.tsx]: [onSubmit] (the HTTP outcome, the
      normalisation of the [content] field, the stripping of code fences
      for blog content, the state updates);
    - [result-card.tsx]: [escapeRegExp], [processedContent] (the removal
      of the image markup that repeats the image URL) and the file name
      chosen by [handleDownloadImage].

    The JavaScript built-ins the code relies on (regular expressions,
    [String.prototype.replace], [JSON.stringify], [String], [typeof],
    truthiness) are embedded after ECMA-262.

    A JavaScript string is modelled as a [string]: one [ascii] per code
    unit, so the strings covered are those whose code units are below
    256.  In that range the line terminators are LF and CR, and the white
    space of [\s] is TAB, LF, VT, FF, CR, SP and NBSP. *)

From Stdlib Require Import Bool Arith ZArith List Ascii String Lia DecimalString.
Import ListNotations.
Local Open Scope string_scope.

Set Implicit Arguments.

(* ================================================================= *)
(** ** Characters and strings *)

Module Js.

Definition LF : ascii := "010"%char.
Definition CR : ascii := "013"%char.
Definition quote : ascii := "034"%char.
Definition backslash : ascii := "092"%char.

(** A string of one character, and the line feed as a string. *)
Definition str1 (c : ascii) : string := String c EmptyString.
Definition nl : string := str1 LF.

(** ECMA-262 LineTerminator, restricted to code units below 256. *)
Definition is_line_terminator (c : ascii) : bool :=
  Ascii.eqb c LF || Ascii.eqb c CR.

(** ECMA-262 WhiteSpace and LineTerminator (the class [\s]). *)
Definition is_space (c : ascii) : bool :=
  let n := nat_of_ascii c in
  ((9 <=? n) && (n <=? 13) || (n =? 32) || (n =? 160))%nat.

Definition in_range (lo hi c : ascii) : bool :=
  ((nat_of_ascii lo <=? nat_of_ascii c) && (nat_of_ascii c <=? nat_of_ascii hi))%nat.

(** [s.startsWith(p)] *)
Fixpoint startsWith (s p : string) {struct p} : bool :=
  match p with
  | EmptyString => true
  | String b p' =>
      match s with
      | EmptyString => false
      | String a s' => Ascii.eqb a b && startsWith s' p'
      end
  end.

(** [s.split(sep)] for a separator of one character: the pieces between
    the separators, in order; never an empty array. *)
Fixpoint split (sep : ascii) (s : string) : list string :=
  match s with
  | EmptyString => [EmptyString]
  | String c s' =>
      if Ascii.eqb c sep then EmptyString :: split sep s'
      else match split sep s' with
           | piece :: pieces => String c piece :: pieces
           | [] => [str1 c]
           end
  end.

(** [a.pop()] on a fresh array: its last element, [undefined] ([None])
    when the array is empty. *)
Fixpoint pop (A : Type) (a : list A) : option A :=
  match a with
  | [] => None
  | [x] => Some x
  | _ :: a' => pop a'
  end.

(** The first [n] characters of [s]. *)
Fixpoint take (n : nat) (s : string) : string :=
  match n, s with
  | S n', String c s' => String c (take n' s')
  | _, _ => EmptyString
  end.

(** What is left of [s] after its first [n] characters. *)
Fixpoint drop (n : nat) (s : string) : string :=
  match n, s with
  | S n', String _ s' => drop n' s'
  | _, _ => s
  end.

(** Truthiness of a string: every string but the empty one. *)
Definition nonempty (s : string) : bool :=
  match s with EmptyString => false | _ => true end.

(** An error object, as far as the code looks at it: its [message]. *)
Record Error : Type := mkError { message : string }.

(** The outcome of evaluating code that may throw (of awaiting a promise
    that may reject). *)
Inductive completion (A : Type) : Type :=
| Normal (a : A)
| Throw (e : Error).

Arguments Normal {A} a.
Arguments Throw {A} e.

Definition bind (A B : Type) (c : completion A) (k : A -> completion B)
  : completion B :=
  match c with
  | Normal a => k a
  | Throw e => Throw e
  end.

End Js.

(* ================================================================= *)
(** ** Regular expressions (ECMA-262, clause 22.2)

    The fragment used by the two components: literal characters, [.],
    character classes made of characters, ranges, [\s] and [\S], the
    quantifiers [*], [*?] and [?], [^] and [$], with the flags [g] and
    [m].  No capture groups occur.  The matcher is the backtracking
    matcher of the standard, in continuation-passing style. *)

Module Regex.
Import Js.

Inductive class_item : Type :=
| CChar (c : ascii)            (* one character *)
| CRange (lo hi : ascii)       (* lo-hi *)
| CSpace                       (* \s *)
| CNonSpace.                   (* \S *)

Inductive regex : Type :=
| Empty                                  (* the empty pattern *)
| Char (c : ascii)                       (* a literal or escaped character *)
| Dot                                    (* . *)
| Class (items : list class_item)        (* [...] *)
| Seq (r1 r2 : regex)                    (* r1 r2 *)
| Star (greedy : bool) (r : regex)       (* r* and r*? *)
| Opt (greedy : bool) (r : regex)        (* r? and r?? *)
| Bol                                    (* ^ *)
| Eol.                                   (* $ *)

(** A regular expression object: pattern and flags. *)
Record RegExp : Type := mkRegExp {
  pattern : regex;
  global : bool;
  multiline : bool
}.

Definition item_matches (c : ascii) (i : class_item) : bool :=
  match i with
  | CChar d => Ascii.eqb c d
  | CRange lo hi => in_range lo hi c
  | CSpace => is_space c
  | CNonSpace => negb (is_space c)
  end.

Definition class_matches (items : list class_item) (c : ascii) : bool :=
  existsb (item_matches c) items.

(** A position in the input: the character before it, if any, and the
    input from it on. *)
Record state : Type := mkState {
  prev : option ascii;
  rest : string
}.

Definition cont : Type := state -> option state.

(** Same end index (the check that rejects empty iterations). *)
Definition same_index (x y : state) : bool :=
  (String.length (rest x) =? String.length (rest y))%nat.

(** CharacterSetMatcher *)
Definition char_matcher (p : ascii -> bool) (k : cont) (x : state) : option state :=
  match rest x with
  | String c s => if p c then k (mkState (Some c) s) else None
  | EmptyString => None
  end.

Definition at_line_start (m : bool) (x : state) : bool :=
  match prev x with
  | None => true
  | Some c => m && is_line_terminator c
  end.

Definition at_line_end (m : bool) (x : state) : bool :=
  match rest x with
  | EmptyString => true
  | String c _ => m && is_line_terminator c
  end.

(** RepeatMatcher with min = 0 and max = infinity.  An iteration that
    consumes nothing fails, so the number of iterations is bounded by the
    length of the remaining input, which is what [fuel] counts. *)
Fixpoint repeat_matcher (body : cont -> state -> option state)
    (greedy : bool) (k : cont) (fuel : nat) (x : state) : option state :=
  match fuel with
  | O => k x
  | S fuel' =>
      let d := fun y => if same_index x y then None
                        else repeat_matcher body greedy k fuel' y in
      if greedy then
        match body d x with Some z => Some z | None => k x end
      else
        match k x with Some z => Some z | None => body d x end
  end.

Fixpoint matcher (m : bool) (r : regex) (k : cont) (x : state) {struct r}
  : option state :=
  match r with
  | Empty => k x
  | Char c => char_matcher (Ascii.eqb c) k x
  | Dot => char_matcher (fun c => negb (is_line_terminator c)) k x
  | Class items => char_matcher (class_matches items) k x
  | Seq r1 r2 => matcher m r1 (matcher m r2 k) x
  | Star greedy r1 =>
      repeat_matcher (matcher m r1) greedy k (S (String.length (rest x))) x
  | Opt greedy r1 =>
      let d := fun y => if same_index x y then None else k y in
      if greedy then
        match matcher m r1 d x with Some z => Some z | None => k x end
      else
        match k x with Some z => Some z | None => matcher m r1 d x end
  | Bol => if at_line_start m x then k x else None
  | Eol => if at_line_end m x then k x else None
  end.

(** The text between two positions of the same input. *)
Definition matched (x y : state) : string :=
  take (String.length (rest x) - String.length (rest y)) (rest x).

(** RegExpBuiltinExec: the leftmost position at or after the current one
    where the pattern matches.  Returns the text skipped, the text
    matched and the position after the match. *)
Fixpoint exec (m : bool) (r : regex) (p : option ascii) (s : string)
  : option (string * string * state) :=
  match matcher m r Some (mkState p s) with
  | Some y => Some (EmptyString, matched (mkState p s) y, y)
  | None =>
      match s with
      | EmptyString => None
      | String c s' =>
          match exec m r (Some c) s' with
          | Some (skipped, mt, y) => Some (String c skipped, mt, y)
          | None => None
          end
      end
  end.

(** The replacement argument of [replace]: a callback on the matched
    text, or a template in which [$&] stands for the matched text and
    [$$] for a dollar sign. *)
Inductive replacement : Type :=
| Callback (f : string -> string)
| Template (t : string).

(** GetSubstitution, for templates without group references. *)
Fixpoint substitute (t mt : string) : string :=
  match t with
  | String "$" (String "&" t') => mt ++ substitute t' mt
  | String "$" (String "$" t') => String "$" (substitute t' mt)
  | String c t' => String c (substitute t' mt)
  | EmptyString => EmptyString
  end.

Definition replacement_text (f : replacement) (mt : string) : string :=
  match f with
  | Callback g => g mt
  | Template t => substitute t mt
  end.

(** [replace] without the [g] flag: the first match only. *)
Definition replace_first (m : bool) (r : regex) (f : replacement) (s : string)
  : string :=
  match exec m r None s with
  | None => s
  | Some (skipped, mt, y) => skipped ++ replacement_text f mt ++ rest y
  end.

(** [replace] with the [g] flag: every match, left to right, each search
    resuming where the previous match ended (one character further after
    an empty match). *)
Fixpoint replace_from (fuel : nat) (m : bool) (r : regex) (f : replacement)
    (p : option ascii) (s : string) : string :=
  match fuel with
  | O => s
  | S fuel' =>
      match exec m r p s with
      | None => s
      | Some (skipped, mt, y) =>
          skipped ++ replacement_text f mt ++
          match mt with
          | EmptyString =>
              match rest y with
              | EmptyString => EmptyString
              | String c s' => String c (replace_from fuel' m r f (Some c) s')
              end
          | _ => replace_from fuel' m r f (prev y) (rest y)
          end
      end
  end.

Definition replace_all (m : bool) (r : regex) (f : replacement) (s : string)
  : string :=
  replace_from (S (String.length s)) m r f None s.

(** [s.replace(re, f)] *)
Definition replace (s : string) (re : RegExp) (f : replacement) : string :=
  if global re then replace_all (multiline re) (pattern re) f s
  else replace_first (multiline re) (pattern re) f s.

(** *** The [RegExp] constructor

    [new RegExp(p, flags)] for patterns [p] of the fragment: characters
    that stand for themselves, a backslash before a syntax character,
    [.], [^], [$] and the quantifiers [*], [*?], [?], [??].  Any other
    pattern is answered by a [SyntaxError]: either ECMA-262 rejects it or
    it is outside the fragment. *)

Inductive token : Type :=
| TChar (c : ascii)
| TDot
| TStar
| TQuest
| TBol
| TEol.

(** SyntaxCharacter: one of [^ $ \ . * + ? ( ) [ ] { } |]. *)
Definition is_syntax_character (c : ascii) : bool :=
  existsb (Ascii.eqb c) (list_ascii_of_string "^$\.*+?()[]{}|").

Fixpoint tokens (p : string) : option (list token) :=
  match p with
  | EmptyString => Some []
  | String c p' =>
      if Ascii.eqb c backslash then
        match p' with
        | String d p'' =>
            if is_syntax_character d
            then option_map (cons (TChar d)) (tokens p'')
            else None
        | EmptyString => None
        end
      else if Ascii.eqb c "." then option_map (cons TDot) (tokens p')
      else if Ascii.eqb c "*" then option_map (cons TStar) (tokens p')
      else if Ascii.eqb c "?" then option_map (cons TQuest) (tokens p')
      else if Ascii.eqb c "^" then option_map (cons TBol) (tokens p')
      else if Ascii.eqb c "$" then option_map (cons TEol) (tokens p')
      else if is_syntax_character c then None
      else option_map (cons (TChar c)) (tokens p')
  end.

Definition atom (t : token) : option regex :=
  match t with
  | TChar c => Some (Char c)
  | TDot => Some Dot
  | _ => None
  end.

(** Alternative: a sequence of terms, each an assertion or an atom with
    an optional quantifier. *)
Fixpoint terms (ts : list token) : option regex :=
  match ts with
  | [] => Some Empty
  | TBol :: ts' => option_map (Seq Bol) (terms ts')
  | TEol :: ts' => option_map (Seq Eol) (terms ts')
  | t :: ts' =>
      match atom t with
      | None => None
      | Some a =>
          match ts' with
          | TStar :: TQuest :: ts'' => option_map (Seq (Star false a)) (terms ts'')
          | TStar :: ts'' => option_map (Seq (Star true a)) (terms ts'')
          | TQuest :: TQuest :: ts'' => option_map (Seq (Opt false a)) (terms ts'')
          | TQuest :: ts'' => option_map (Seq (Opt true a)) (terms ts'')
          | _ => option_map (Seq a) (terms ts')
          end
      end
  end.

Fixpoint parse_flags (flags : string) (re : RegExp) : option RegExp :=
  match flags with
  | EmptyString => Some re
  | String c flags' =>
      if Ascii.eqb c "g" then
        if global re then None
        else parse_flags flags' (mkRegExp (pattern re) true (multiline re))
      else if Ascii.eqb c "m" then
        if multiline re then None
        else parse_flags flags' (mkRegExp (pattern re) (global re) true)
      else None
  end.

Definition SyntaxError : Error := mkError "Invalid regular expression".

Definition RegExp_new (p flags : string) : completion RegExp :=
  match tokens p with
  | None => Throw SyntaxError
  | Some ts =>
      match terms ts with
      | None => Throw SyntaxError
      | Some r =>
          match parse_flags flags (mkRegExp r false false) with
          | None => Throw SyntaxError
          | Some re => Normal re
          end
      end
  end.

(** A sequence of terms, as a regular expression literal lists them. *)
Definition seq (rs : list regex) : regex := fold_right Seq Empty rs.

(** The pattern that matches the characters of [s], one after the other. *)
Definition literal (s : string) : regex :=
  seq (map Char (list_ascii_of_string s)).

End Regex.

(* ================================================================= *)
(** ** JSON values and the conversions of ECMA-262 *)

Module Json.
Import Js.

(** A finite number, given by its decimal expansion
    [significand * 10 ^ exponent].  Every finite double has such an
    expansion; the one meant is the shortest that reads back as the same
    double, which is the one [Number::toString] prints. *)
Record number : Type := mkNumber {
  significand : Z;
  exponent : Z
}.

Definition integer (z : Z) : number := mkNumber z 0.

Unset Elimination Schemes.
Inductive json : Type :=
| JNull
| JBool (b : bool)
| JNumber (n : number)
| JString (s : string)
| JArray (items : list json)
| JObject (props : list (string * json)).   (* own properties, in order *)
Set Elimination Schemes.

(** What an expression evaluates to here: [undefined], or a value that
    [JSON.parse] can produce. *)
Inductive value : Type :=
| Undefined
| Json (j : json).

Definition Str (s : string) : value := Json (JString s).

(** [typeof v] *)
Definition typeof (v : value) : string :=
  match v with
  | Undefined => "undefined"
  | Json JNull => "object"
  | Json (JBool _) => "boolean"
  | Json (JNumber _) => "number"
  | Json (JString _) => "string"
  | Json (JArray _) => "object"
  | Json (JObject _) => "object"
  end.

(** ToBoolean *)
Definition ToBoolean (v : value) : bool :=
  match v with
  | Undefined => false
  | Json JNull => false
  | Json (JBool b) => b
  | Json (JNumber n) => negb (significand n =? 0)%Z
  | Json (JString s) => nonempty s
  | Json (JArray _) => true
  | Json (JObject _) => true
  end.

(** [v === null] *)
Definition is_null (v : value) : bool :=
  match v with
  | Json JNull => true
  | _ => false
  end.

(** [a || b] *)
Definition or (a b : value) : value := if ToBoolean a then a else b.

Fixpoint lookup (key : string) (props : list (string * json)) : value :=
  match props with
  | [] => Undefined
  | (k, v) :: props' => if String.eqb k key then Json v else lookup key props'
  end.

Definition TypeError (what key : string) : Error :=
  mkError ("Cannot read properties of " ++ what ++ " (reading '" ++ key ++ "')").

(** [v.key] for a key that is neither an array index nor the name of a
    built-in property ([content], [raw], [detail], ...): an own property of
    an object, [undefined] on any other value, a [TypeError] on [null] and
    [undefined]. *)
Definition get (v : value) (key : string) : completion value :=
  match v with
  | Undefined => Throw (TypeError "undefined" key)
  | Json JNull => Throw (TypeError "null" key)
  | Json (JObject props) => Normal (lookup key props)
  | Json _ => Normal Undefined
  end.

(** *** [Number::toString] (radix 10) *)

Definition digits (n : N) : string := NilZero.string_of_uint (N.to_uint n).

(** The digits without their trailing zeros, and how many zeros there were. *)
Fixpoint split_zeros (ds : string) : string * nat :=
  match ds with
  | EmptyString => (EmptyString, O)
  | String c ds' =>
      let (d, z) := split_zeros ds' in
      match d with
      | EmptyString => if Ascii.eqb c "0" then (EmptyString, S z) else (str1 c, z)
      | _ => (String c d, z)
      end
  end.

Fixpoint zeros (n : nat) : string :=
  match n with
  | O => EmptyString
  | S n' => String "0" (zeros n')
  end.

Definition Number_toString (x : number) : string :=
  if (significand x =? 0)%Z then "0"
  else
    let sign := if (significand x <? 0)%Z then "-" else "" in
    let (s, z) := split_zeros (digits (Z.abs_N (significand x))) in
    let k := Z.of_nat (String.length s) in
    let n := (k + Z.of_nat z + exponent x)%Z in
    sign ++
    if ((k <=? n) && (n <=? 21))%Z then
      s ++ zeros (Z.to_nat (n - k))
    else if ((0 <? n) && (n <=? 21))%Z then
      take (Z.to_nat n) s ++ "." ++ drop (Z.to_nat n) s
    else if ((-6 <? n) && (n <=? 0))%Z then
      "0." ++ zeros (Z.to_nat (- n)) ++ s
    else
      let e := (n - 1)%Z in
      let esign := if (e <? 0)%Z then "-" else "+" in
      let mantissa :=
        if (k =? 1)%Z then s
        else take 1 s ++ "." ++ drop 1 s in
      mantissa ++ "e" ++ esign ++ digits (Z.abs_N e).

(** *** ToString, which is what [String(v)] and [new Error(v)] apply

    A primitive value is printed.  An array is joined with commas
    ([Array.prototype.join]: [null] elements print empty, the others are
    converted in turn).  An object is converted by OrdinaryToPrimitive:
    without an own property [toString] the inherited method answers
    "[object Object]"; with one, which in a parsed value is never callable,
    no method returns a primitive and the conversion throws a
    [TypeError]. *)

Definition ConversionError : Error :=
  mkError "Cannot convert object to primitive value".

Definition has_own (key : string) (props : list (string * json)) : bool :=
  existsb (fun kv => String.eqb (fst kv) key) props.

Fixpoint ToString_json (j : json) : completion string :=
  match j with
  | JNull => Normal "null"
  | JBool true => Normal "true"
  | JBool false => Normal "false"
  | JNumber n => Normal (Number_toString n)
  | JString s => Normal s
  | JArray items =>
      bind
        ((fix elements (l : list json) : completion (list string) :=
            match l with
            | [] => Normal []
            | x :: l' =>
                bind (match x with
                      | JNull => Normal ""
                      | _ => ToString_json x
                      end) (fun s =>
                bind (elements l') (fun ss => Normal (s :: ss)))
            end) items)
        (fun ss => Normal (String.concat "," ss))
  | JObject props =>
      if has_own "toString" props then Throw ConversionError
      else Normal "[object Object]"
  end.

Definition ToString (v : value) : completion string :=
  match v with
  | Undefined => Normal "undefined"
  | Json j => ToString_json j
  end.

(** *** [JSON.stringify(v, null, gap)] *)

Definition hex_digit (n : nat) : ascii :=
  match nth_error (list_ascii_of_string "0123456789abcdef") n with
  | Some c => c
  | None => "0"%char
  end.

Definition quote_char (c : ascii) : string :=
  let n := nat_of_ascii c in
  if Ascii.eqb c quote then String backslash (str1 quote)
  else if Ascii.eqb c backslash then String backslash (str1 backslash)
  else if (n =? 8)%nat then String backslash "b"
  else if (n =? 9)%nat then String backslash "t"
  else if (n =? 10)%nat then String backslash "n"
  else if (n =? 12)%nat then String backslash "f"
  else if (n =? 13)%nat then String backslash "r"
  else if (n <? 32)%nat then
    String backslash "u00" ++ String (hex_digit (n / 16)) (str1 (hex_digit (n mod 16)))
  else str1 c.

(** QuoteJSONString *)
Definition quote_string (s : string) : string :=
  str1 quote ++ String.concat "" (map quote_char (list_ascii_of_string s))
  ++ str1 quote.

(** SerializeJSONProperty, with the current indentation; an empty [gap]
    gives the compact form. *)
Fixpoint serialize (gap indent : string) (j : json) : string :=
  let inner := indent ++ gap in
  let separator := if nonempty gap then "," ++ nl ++ inner else "," in
  let wrap := fun (l : string) (parts : list string) (r : string) =>
    match parts with
    | [] => l ++ r
    | _ =>
        if nonempty gap
        then l ++ nl ++ inner ++ String.concat separator parts ++ nl ++ indent ++ r
        else l ++ String.concat separator parts ++ r
    end in
  match j with
  | JNull => "null"
  | JBool true => "true"
  | JBool false => "false"
  | JNumber n => Number_toString n
  | JString s => quote_string s
  | JArray items => wrap "[" (map (serialize gap inner) items) "]"
  | JObject props =>
      wrap "{"
        (map (fun kv : string * json =>
                let (k, v) := kv in
                quote_string k ++ ":" ++ (if nonempty gap then " " else "")
                ++ serialize gap inner v) props)
        "}"
  end.

(** [JSON.stringify(j, null, spaces)] *)
Definition stringify (j : json) (spaces : nat) : string :=
  serialize (String.concat "" (repeat " " spaces)) "" j.

End Json.

(* ================================================================= *)
(** ** [content-generator-form.tsx] *)

Module Form.
Import Js Regex Json.

Notation "x <- c ;; k" := (bind c (fun x => k))
  (at level 61, c at next level, right associativity).

Inductive content_type_enum : Type :=
  Blog | X | Facebook | Linkedin | Newsletter.

Definition content_type_name (t : content_type_enum) : string :=
  match t with
  | Blog => "blog"
  | X => "x"
  | Facebook => "facebook"
  | Linkedin => "linkedin"
  | Newsletter => "newsletter"
  end.

(** [FormData], after validation by the form schema. *)
Record FormData : Type := mkFormData {
  form_url : string;
  form_content_type : content_type_enum
}.

(** The object kept in [result]: the response with [content] replaced by
    the display text.  The other fields come from the server unchecked. *)
Record GeneratedContent : Type := mkGeneratedContent {
  url : value;
  content_type : value;
  image_url : value;
  content : string
}.

Inductive toast : Type :=
| toast_success (text : string)
| toast_error (text : string).

(** The state of the component ([useState]) and the notifications shown. *)
Record view : Type := mkView {
  loading : bool;
  result : option GeneratedContent;
  toasts : list toast
}.

Definition setLoading (b : bool) (v : view) : view :=
  mkView b (result v) (toasts v).

Definition setResult (r : option GeneratedContent) (v : view) : view :=
  mkView (loading v) r (toasts v).

Definition show (t : toast) (v : view) : view :=
  mkView (loading v) (result v) (toasts v ++ [t]).

(** The request sent and the [Response] received. *)
Record request : Type := mkRequest {
  endpoint : string;
  method : string;
  body : string
}.

Record Response : Type := mkResponse {
  ok : bool;
  json : completion Json.json     (* [await response.json()] *)
}.

Definition generate_endpoint : string :=
  "https://167aliraza-crewai.hf.space/generate-content-with-image".

(** [/^```[a-zA-Z0-9]*\n?[\s\S]*?$/m] *)
Definition fence_block : RegExp :=
  mkRegExp
    (seq [Bol; Char "`"; Char "`"; Char "`";
          Star true (Class [CRange "a" "z"; CRange "A" "Z"; CRange "0" "9"]);
          Opt true (Char LF);
          Star false (Class [CSpace; CNonSpace]);
          Eol])
    false true.

(** [/^```[a-zA-Z0-9]*\n?/] *)
Definition fence_open : RegExp :=
  mkRegExp
    (seq [Bol; Char "`"; Char "`"; Char "`";
          Star true (Class [CRange "a" "z"; CRange "A" "Z"; CRange "0" "9"]);
          Opt true (Char LF)])
    false false.

(** [/\n?```\s*$/] *)
Definition fence_close : RegExp :=
  mkRegExp
    (seq [Opt true (Char LF); Char "`"; Char "`"; Char "`";
          Star true (Class [CSpace]);
          Eol])
    false false.

(** The normalisation of [resultData.content] (lines 72 to 85).  Where
    the source assigns a value that is a string, the model converts it to
    a string, which leaves a string as it is. *)
Definition displayContent (content : value) : completion string :=
  if String.eqb (typeof content) "object" && negb (is_null content)
  then
    raw <- get content "raw" ;;
    if ToBoolean raw && String.eqb (typeof raw) "string" then
      ToString raw
    else
      Normal ("```json" ++ nl
              ++ match content with
                 | Json j => stringify j 2
                 | Undefined => "undefined"
                 end
              ++ nl ++ "```")
  else if String.eqb (typeof content) "string" then
    ToString content
  else
    ToString content.

(** The callback given to [replace] (lines 90 to 97). *)
Definition strip_match (mt : string) : string :=
  if startsWith mt "```" then
    let withoutStart := replace mt fence_open (Template "") in
    replace withoutStart fence_close (Template "")
  else mt.

(** [unFenced] (lines 88 to 98), from [resultData.content_type] and the
    display text. *)
Definition isBlog (content_type : value) : bool :=
  match content_type with
  | Json (JString s) => String.eqb s "blog"
  | _ => false
  end.

Definition unFenced (content_type : value) (displayContent : string) : string :=
  if isBlog content_type
  then replace displayContent fence_block (Callback strip_match)
  else displayContent.

(** The request: a POST of [JSON.stringify(payload)]. *)
Definition submitted (data : FormData) : request :=
  let payload :=
    JObject [("url", JString (form_url data));
             ("content_type", JString (content_type_name (form_content_type data)))] in
  mkRequest generate_endpoint "POST" (stringify payload 0).

(** The body of the [try] block, up to [setResult]: what it throws, or
    the object it stores. *)
Definition attempt (fetch : request -> completion Response) (data : FormData)
  : completion GeneratedContent :=
  response <- fetch (submitted data) ;;
  if negb (ok response) then
    errorData <- json response ;;
    detail <- get (Json errorData) "detail" ;;
    text <- ToString (or detail (Str "Failed to generate content.")) ;;
    Throw (mkError text)
  else
    resultData <- json response ;;
    content <- get (Json resultData) "content" ;;
    display <- displayContent content ;;
    type <- get (Json resultData) "content_type" ;;
    url <- get (Json resultData) "url" ;;
    image <- get (Json resultData) "image_url" ;;
    Normal (mkGeneratedContent url type image (unFenced type display)).

(** The message shown by the [catch] block: [error.message || "..."]. *)
Definition surfaced (error : Error) : string :=
  if nonempty (message error) then message error
  else "An unexpected error occurred.".

(** [onSubmit] runs in two steps around the request it awaits.  Before
    the request (lines 45 and 46) the form is loading and the previous
    result is cleared; this is the state shown while the request is in
    flight. *)
Definition submitting (v : view) : view :=
  setResult None (setLoading true v).

(** After the request: the end of the [try] block or the [catch] block,
    then the [finally] block. *)
Definition settle (outcome : completion GeneratedContent) (v : view) : view :=
  setLoading false
    match outcome with
    | Normal r => show (toast_success "Content generated successfully!")
                       (setResult (Some r) v)
    | Throw error => show (toast_error (surfaced error)) v
    end.

Definition onSubmit (fetch : request -> completion Response) (data : FormData)
    (v : view) : view :=
  settle (attempt fetch data) (submitting v).

(** [handleNewGeneration] *)
Definition handleNewGeneration (v : view) : view := setResult None v.

End Form.

(* ================================================================= *)
(** ** [result-card.tsx] *)

Module ResultCard.
Import Js Regex Json.

(** [/[.*+?^${}()|[\]\\]/g] *)
Definition metacharacters : RegExp :=
  mkRegExp
    (Class (map CChar (list_ascii_of_string ".*+?^${}()|[]\")))
    true false.

(** [escapeRegExp]: every metacharacter gets a backslash before it. *)
Definition escapeRegExp (text : string) : string :=
  replace text metacharacters (Template "\$&").

(** The prop [imageUrl?: string | null]. *)
Inductive image_prop : Type :=
| image_undefined
| image_null
| image (src : string).

(** [imageUrl ?? undefined] *)
Definition imageSrc (imageUrl : image_prop) : option string :=
  match imageUrl with
  | image src => Some src
  | _ => None
  end.

(** [processedContent] (lines 61 to 63). *)
Definition processedContent (imageUrl : image_prop) (content : string)
  : completion string :=
  match imageSrc imageUrl with
  | Some src =>
      if nonempty src then
        bind (RegExp_new ("!\[.*?\]\(" ++ escapeRegExp src ++ "\)") "g")
             (fun re => Normal (replace content re (Template "")))
      else Normal content
  | None => Normal content
  end.

(** [fileNameFromUrl], from the [pathname] of the parsed image URL. *)
Definition fileNameFromUrl (urlPath : string) : option string :=
  pop (filter nonempty (split "/" urlPath)).

(** [extensionFromType], from the [type] of the blob fetched. *)
Definition extensionFromType (blobType : string) : string :=
  match nth_error (split "/" blobType) 1 with
  | Some sub => if nonempty sub then sub else "png"
  | None => "png"
  end.

(** [link.download] in [handleDownloadImage] (lines 45 to 48).  The URL
    parser and the fetch belong to the platform: the path of the parsed
    URL and the media type of the blob are arguments. *)
Definition download (urlPath blobType : string) : string :=
  match fileNameFromUrl urlPath with
  | Some name =>
      if nonempty name then name
      else "generated-image." ++ extensionFromType blobType
  | None => "generated-image." ++ extensionFromType blobType
  end.

End ResultCard.

(* ================================================================= *)
(** ** [result-card.tsx]: the handlers of the two buttons *)

Module Handlers.
Import Js Regex Json Form ResultCard.

(** What [fetch(imageSrc)] resolves to, as far as the handler looks at
    it: its [blob()], of which only the [type] is read.  The handler
    never reads [ok]. *)
Record ImageResponse : Type := mkImageResponse {
  image_ok : bool;
  blob_type : completion string      (* [(await response.blob()).type] *)
}.

(** What a click on a button leaves behind: the text written to the
    clipboard or the name under which a file is saved, if any, and the
    notifications shown. *)
Record effects : Type := mkEffects {
  output : option string;
  notices : list toast
}.

(** [handleCopyToClipboard] (lines 26 to 34).  [writeText] is the
    clipboard of the platform: it may reject. *)
Definition handleCopyToClipboard (writeText : string -> completion unit)
    (content : string) : effects :=
  match writeText content with
  | Normal _ => mkEffects (Some content) [toast_success "Content copied to clipboard!"]
  | Throw _ => mkEffects None [toast_error "Failed to copy content."]
  end.

(** [handleDownloadImage] (lines 36 to 58).  [fetch] and the URL parser
    ([pathname src] is [new URL(src, window.location.href).pathname])
    belong to the platform: each may throw. *)
Definition handleDownloadImage (fetch : string -> completion ImageResponse)
    (pathname : string -> completion string) (imageUrl : image_prop) : effects :=
  match imageSrc imageUrl with
  | Some src =>
      if nonempty src then
        match
          bind (fetch src) (fun response =>
          bind (blob_type response) (fun blobType =>
          bind (pathname src) (fun urlPath =>
          Normal (download urlPath blobType))))
        with
        | Normal name => mkEffects (Some name) [toast_success "Image downloaded"]
        | Throw _ => mkEffects None [toast_error "Failed to download image"]
        end
      else mkEffects None []
  | None => mkEffects None []
  end.

End Handlers.

(* ================================================================= *)
(** ** Notions used to state the properties *)

Module Spec.
Import Js Regex Json Form ResultCard.

(** *** What a pattern matches

    [matches m r x y]: the pattern [r] (multiline flag [m]) can match
    the input between the positions [x] and [y]. *)
Inductive matches (m : bool) : regex -> state -> state -> Prop :=
| M_Empty x :
    matches m Empty x x
| M_Char c p s :
    matches m (Char c) (mkState p (String c s)) (mkState (Some c) s)
| M_Dot c p s :
    is_line_terminator c = false ->
    matches m Dot (mkState p (String c s)) (mkState (Some c) s)
| M_Class items c p s :
    class_matches items c = true ->
    matches m (Class items) (mkState p (String c s)) (mkState (Some c) s)
| M_Seq r1 r2 x y z :
    matches m r1 x y -> matches m r2 y z -> matches m (Seq r1 r2) x z
| M_Star_stop g r x :
    matches m (Star g r) x x
| M_Star_more g r x y z :
    matches m r x y -> same_index x y = false -> matches m (Star g r) y z ->
    matches m (Star g r) x z
| M_Opt_none g r x :
    matches m (Opt g r) x x
| M_Opt_some g r x y :
    matches m r x y -> same_index x y = false -> matches m (Opt g r) x y
| M_Bol x :
    at_line_start m x = true -> matches m Bol x x
| M_Eol x :
    at_line_end m x = true -> matches m Eol x x.

(** The character before the position reached by reading [w]. *)
Fixpoint prev_after (p : option ascii) (w : string) : option ascii :=
  match w with
  | EmptyString => p
  | String c w' => prev_after (Some c) w'
  end.

(** *** Fences *)

(** A line begins after a line terminator and at the start of the text. *)
Definition line_start (p : option ascii) : bool :=
  match p with
  | None => true
  | Some c => is_line_terminator c
  end.

(** Some line of [s] begins with three backticks ([p] is the character
    before [s]). *)
Fixpoint fence_line_from (p : option ascii) (s : string) : bool :=
  line_start p && startsWith s "```"
  || match s with
     | EmptyString => false
     | String c s' => fence_line_from (Some c) s'
     end.

Definition has_fence_line (s : string) : bool := fence_line_from None s.

(** The characters allowed in the language tag of a fence. *)
Definition tag_class : list class_item :=
  [CRange "a" "z"; CRange "A" "Z"; CRange "0" "9"].

Definition alphanumeric (s : string) : bool :=
  forallb (class_matches tag_class) (list_ascii_of_string s).

Definition blog_type : value := Str "blog".

(** *** Image markup *)

Definition no_line_terminator (s : string) : bool :=
  forallb (fun c => negb (is_line_terminator c)) (list_ascii_of_string s).

(** The markdown image directive with alternative text [alt] and
    address [u]. *)
Definition directive (alt u : string) : string :=
  "![" ++ alt ++ "](" ++ u ++ ")".

(** [s] contains no directive for [u] whose alternative text stays on one
    line. *)
Definition no_occurrence (u s : string) : Prop :=
  forall a alt b,
    no_line_terminator alt = true -> s <> a ++ directive alt u ++ b.

(** The text with a backslash put before each metacharacter. *)
Definition is_metacharacter (c : ascii) : bool :=
  existsb (Ascii.eqb c) (list_ascii_of_string ".*+?^${}()|[]\").

Fixpoint escaped (s : string) : string :=
  match s with
  | EmptyString => EmptyString
  | String c s' =>
      if is_metacharacter c then String backslash (String c (escaped s'))
      else String c (escaped s')
  end.

(** The pattern built for the image address [u]: [!\[.*?\]\(u\)] with
    the characters of [u] taken literally. *)
Definition image_pattern (u : string) : regex :=
  Seq (Char "!") (Seq (Char "[") (Seq (Star false Dot)
    (Seq (Char "]") (Seq (Char "(") (literal (u ++ ")")))))).

(** A text cut into pieces, each a text kept followed by a directive for
    [u] with some alternative text, and a tail: the text itself, and the
    text with the directives taken out. *)
Fixpoint with_markup (u : string) (pieces : list (string * string))
    (tail : string) : string :=
  match pieces with
  | [] => tail
  | (kept, alt) :: pieces' =>
      kept ++ directive alt u ++ with_markup u pieces' tail
  end.

Fixpoint without_markup (pieces : list (string * string)) (tail : string)
  : string :=
  match pieces with
  | [] => tail
  | (kept, _) :: pieces' => kept ++ without_markup pieces' tail
  end.

(** *** Paths and media types *)

Definition no_slash (s : string) : bool :=
  forallb (fun c => negb (Ascii.eqb c "/")) (list_ascii_of_string s).

Definition only_slashes (s : string) : bool :=
  forallb (fun c => Ascii.eqb c "/") (list_ascii_of_string s).

(** *** Sample data *)

Definition fenced_sample : string :=
  "```markdown" ++ nl ++ "# Title" ++ nl ++ "Body" ++ nl ++ "```".

Definition sample_form : FormData := mkFormData "https://example.com/post" Blog.

Definition idle : view := mkView false None [].

Definition refusing (body : Json.json) : request -> completion Response :=
  fun _ => Normal (mkResponse false (Normal body)).

(** *** Further notions *)

(** No character of [s] is [c]. *)
Definition without_char (c : ascii) (s : string) : bool :=
  forallb (fun d => negb (Ascii.eqb d c)) (list_ascii_of_string s).

(** The last line of [s] holds no image opener [![]: every opener of [s]
    has a line terminator after it in [s]. *)
Fixpoint last_line_without_opener (s : string) : bool :=
  match s with
  | EmptyString => true
  | String c s' =>
      negb (startsWith s "![" && no_line_terminator s')
      && last_line_without_opener s'
  end.

(** A piece of content well formed for the address [u]: a text kept,
    which holds no directive for [u] and no image opener on its last
    line, then a directive for [u] whose alternative text holds no
    closing bracket and no line terminator. *)
Definition well_formed (u : string) (piece : string * string) : Prop :=
  no_occurrence u (fst piece) /\
  last_line_without_opener (fst piece) = true /\
  no_line_terminator (snd piece) = true /\
  without_char "]" (snd piece) = true.

(** No character of [s] is a metacharacter; how many are. *)
Definition plain (s : string) : bool :=
  forallb (fun c => negb (is_metacharacter c)) (list_ascii_of_string s).

Fixpoint count_metacharacters (s : string) : nat :=
  match s with
  | EmptyString => O
  | String c s' =>
      (if is_metacharacter c then 1 else 0) + count_metacharacters s'
  end.

(** The display text the normaliser builds for a structured value. *)
Definition fenced_json (j : Json.json) : string :=
  "```json" ++ nl ++ stringify j 2 ++ nl ++ "```".

(** A server that answers every request with a response that is ok. *)
Definition answering (body : Json.json) : request -> completion Response :=
  fun _ => Normal (mkResponse true (Normal body)).

End Spec.

Import Js Regex Json Form ResultCard Handlers Spec.

(* ================================================================= *)
(** ** Strings *)

Unset Implicit Arguments.

Arguments startsWith : simpl never.

Ltac invert_matches :=
  repeat match goal with
  | H : matches _ (Seq _ _) _ _ |- _ => inversion H; subst; clear H
  | H : matches _ Bol _ _ |- _ => inversion H; subst; clear H
  | H : matches _ Eol _ _ |- _ => inversion H; subst; clear H
  | H : matches _ (Char _) _ _ |- _ => inversion H; subst; clear H
  | H : matches _ Empty _ _ |- _ => inversion H; subst; clear H
  end.

Lemma append_nil_r (s : string) : s ++ "" = s.
Proof. induction s as [| c s IH]; simpl; [| rewrite IH]; reflexivity. Qed.

Lemma append_assoc (a b c : string) : (a ++ b) ++ c = a ++ b ++ c.
Proof. induction a as [| x a IH]; simpl; [| rewrite IH]; reflexivity. Qed.

Lemma length_append (a b : string) :
  String.length (a ++ b) = String.length a + String.length b.
Proof. induction a as [| x a IH]; simpl; [| rewrite IH]; reflexivity. Qed.

(* ================================================================= *)
(** ** The normaliser *)

Lemma displayContent_object (props : list (string * Json.json)) :
  displayContent (Json (JObject props)) =
  match lookup "raw" props with
  | Json (JString raw) =>
      if nonempty raw then Normal raw
      else Normal ("```json" ++ nl ++ stringify (JObject props) 2 ++ nl ++ "```")
  | _ => Normal ("```json" ++ nl ++ stringify (JObject props) 2 ++ nl ++ "```")
  end.
Proof.
  unfold displayContent.
  replace (String.eqb (typeof (Json (JObject props))) "object"
           && negb (is_null (Json (JObject props)))) with true by reflexivity.
  cbn [get bind].
  destruct (lookup "raw" props) as [|[| b | n | raw | items | ps]];
    try reflexivity.
  - destruct b; reflexivity.
  - cbn [ToBoolean]. destruct (negb _); reflexivity.
  - cbn [ToBoolean typeof ToString ToString_json].
    replace (String.eqb "string" "string") with true by reflexivity.
    rewrite andb_true_r. reflexivity.
Qed.

(** C1, as amended.  The display text follows an ordered chain: an
    object whose [raw] field is a non-empty string gives that string; an
    object whose [raw] field is absent or not a string, and every array,
    gives the pretty-printed JSON inside a fence labelled json; a string
    gives itself; a number, a boolean, [null] and [undefined] give their
    string representation. *)
Theorem displayContent_chain :
  (forall props raw,
      lookup "raw" props = Str raw -> raw <> "" ->
      displayContent (Json (JObject props)) = Normal raw) /\
  (forall props,
      (forall raw, lookup "raw" props <> Str raw) ->
      displayContent (Json (JObject props)) =
      Normal ("```json" ++ nl ++ stringify (JObject props) 2 ++ nl ++ "```")) /\
  (forall items,
      displayContent (Json (JArray items)) =
      Normal ("```json" ++ nl ++ stringify (JArray items) 2 ++ nl ++ "```")) /\
  (forall s, displayContent (Str s) = Normal s) /\
  (forall n, displayContent (Json (JNumber n)) = Normal (Number_toString n)) /\
  displayContent (Json (JBool true)) = Normal "true" /\
  displayContent (Json (JBool false)) = Normal "false" /\
  displayContent (Json JNull) = Normal "null" /\
  displayContent Undefined = Normal "undefined" /\
  displayContent (Json (JNumber (integer 42))) = Normal "42".
Proof.
  repeat split; try reflexivity.
  - intros props raw Hraw Hne. rewrite displayContent_object, Hraw.
    unfold Str. destruct raw; [contradiction | reflexivity].
  - intros props Hraw. rewrite displayContent_object.
    destruct (lookup "raw" props) as [|[| b | n | raw | items | ps]];
      try reflexivity.
    exfalso. apply (Hraw raw). reflexivity.
Qed.

Lemma displayContent_chain_witness :
  displayContent (Json (JObject [("raw", JString "# Hi")])) = Normal "# Hi" /\
  displayContent (Json (JObject [("foo", JNumber (integer 1))])) =
  Normal ("```json" ++ nl ++ "{" ++ nl ++ "  " ++ str1 quote ++ "foo"
          ++ str1 quote ++ ": 1" ++ nl ++ "}" ++ nl ++ "```").
Proof.
  split.
  - apply (proj1 displayContent_chain [("raw", JString "# Hi")] "# Hi").
    + reflexivity.
    + discriminate.
  - rewrite (proj1 (proj2 displayContent_chain) [("foo", JNumber (integer 1))]).
    + reflexivity.
    + intros raw. simpl. discriminate.
Defined.

(** C1, as the specification words it, fails on arrays: [[1]] is an
    object for [typeof], so it is printed as fenced JSON and not coerced
    to the string ["1"]. *)
Lemma displayContent_array_not_coerced :
  ToString (Json (JArray [JNumber (integer 1)])) = Normal "1" /\
  displayContent (Json (JArray [JNumber (integer 1)])) <>
  ToString (Json (JArray [JNumber (integer 1)])).
Proof.
  split; [reflexivity | vm_compute; discriminate].
Qed.

(** C4.  The normaliser returns a string for every value of [content]:
    no property is read from [null] or [undefined]. *)
Theorem displayContent_total (content : value) :
  exists s, displayContent content = Normal s.
Proof.
  destruct content as [|[| [|] | n | s | items | props]];
    try (eexists; reflexivity).
  rewrite displayContent_object.
  destruct (lookup "raw" props) as [|[| b | n | raw | items | ps]];
    try (eexists; reflexivity).
  destruct (nonempty raw); eexists; reflexivity.
Qed.

(* ================================================================= *)
(** ** The submission *)

Lemma onSubmit_throw fetch data v e :
  attempt fetch data = Throw e ->
  onSubmit fetch data v = mkView false None ((toasts v ++ [toast_error (surfaced e)])%list).
Proof. intros H. unfold onSubmit, settle. rewrite H. reflexivity. Qed.

Lemma attempt_refused fetch data response :
  fetch (submitted data) = Normal response -> ok response = false ->
  attempt fetch data =
  bind (json response) (fun errorData =>
  bind (get (Json errorData) "detail") (fun detail =>
  bind (ToString (or detail (Str "Failed to generate content."))) (fun text =>
  Throw (mkError text)))).
Proof.
  intros Hf Hok. unfold attempt. rewrite Hf. cbn [bind]. rewrite Hok. reflexivity.
Qed.

Lemma refused_text fetch data v response body detail text :
  fetch (submitted data) = Normal response -> ok response = false ->
  json response = Normal body ->
  get (Json body) "detail" = Normal detail ->
  ToString (or detail (Str "Failed to generate content.")) = Normal text ->
  toasts (onSubmit fetch data v)
  = (toasts v ++ [toast_error (surfaced (mkError text))])%list.
Proof.
  intros Hf Hok Hb Hd Ht.
  pose proof (attempt_refused fetch data response Hf Hok) as Ha.
  rewrite Hb in Ha. cbn [bind] in Ha. rewrite Hd in Ha. cbn [bind] in Ha.
  rewrite Ht in Ha. cbn [bind] in Ha.
  rewrite (onSubmit_throw _ _ v _ Ha). reflexivity.
Qed.





(** C9.  Every submission first clears the result displayed; after a
    submission that fails, by a network error or by a response that is
    not ok, no result is displayed, whatever was displayed before, and
    the form is no longer loading.  In every case the result displayed at
    the end is the new one or none, never the previous one. *)
Theorem failed_submission_clears_result :
  (forall v, result (submitting v) = None) /\
  (forall fetch data v,
      (exists e, fetch (submitted data) = Throw e) \/
      (exists response,
          fetch (submitted data) = Normal response /\ ok response = false) ->
      result (onSubmit fetch data v) = None
      /\ loading (onSubmit fetch data v) = false) /\
  (forall fetch data v,
      result (onSubmit fetch data v)
      = match attempt fetch data with
        | Normal r => Some r
        | Throw _ => None
        end).
Proof.
  split; [reflexivity |]. split.
  - intros fetch data v H.
    assert (exists e, attempt fetch data = Throw e) as [e He].
    { destruct H as [[e He] | [response [Hf Hok]]].
      - exists e. unfold attempt. rewrite He. reflexivity.
      - rewrite (attempt_refused fetch data response Hf Hok).
        destruct (json response) as [errorData | e]; cbn [bind].
        + destruct (get (Json errorData) "detail") as [detail | e]; cbn [bind];
            [| eexists; reflexivity].
          destruct (ToString (or detail (Str "Failed to generate content.")));
            cbn [bind]; eexists; reflexivity.
        + eexists; reflexivity. }
    rewrite (onSubmit_throw _ _ v _ He). split; reflexivity.
  - intros fetch data v. unfold onSubmit, settle.
    destruct (attempt fetch data); reflexivity.
Qed.

Lemma failed_submission_clears_result_witness :
  result (onSubmit (fun _ => Throw (mkError "Failed to fetch")) sample_form
            (mkView false
               (Some (mkGeneratedContent Undefined blog_type Undefined "old text"))
               []))
  = None.
Proof.
  apply (proj1 (proj2 failed_submission_clears_result)
           (fun _ => Throw (mkError "Failed to fetch")) sample_form).
  left. exists (mkError "Failed to fetch"). reflexivity.
Defined.

(* ================================================================= *)
(** ** The result card *)

(** C10.  Without an image address ([undefined] or [null]) the text
    shown is the content, unchanged. *)
Theorem processedContent_without_image (content : string) :
  processedContent image_undefined content = Normal content /\
  processedContent image_null content = Normal content.
Proof. split; reflexivity. Qed.

(** *** The download name *)

Lemma split_not_nil sep s : split sep s <> [].
Proof.
  destruct s as [| c s]; simpl; [discriminate |].
  destruct (Ascii.eqb c sep); [discriminate |].
  destruct (split sep s); discriminate.
Qed.

Lemma split_app sep a b :
  split sep (a ++ String sep b) = (split sep a ++ split sep b)%list.
Proof.
  induction a as [| c a IH]; simpl.
  - rewrite Ascii.eqb_refl. reflexivity.
  - destruct (Ascii.eqb c sep).
    + rewrite IH. reflexivity.
    + rewrite IH. pose proof (split_not_nil sep a) as Hne.
      destruct (split sep a); [contradiction | reflexivity].
Qed.

Lemma split_no_slash s : no_slash s = true -> split "/" s = [s].
Proof.
  unfold no_slash. induction s as [| c s IH]; simpl; [reflexivity |].
  intros H. apply andb_prop in H as [Hc Hs].
  apply negb_true_iff in Hc. rewrite Hc, (IH Hs). reflexivity.
Qed.

Lemma split_only_slashes s :
  only_slashes s = true -> filter nonempty (split "/" s) = [].
Proof.
  unfold only_slashes. induction s as [| c s IH]; simpl; [reflexivity |].
  intros H. apply andb_prop in H as [Hc Hs].
  rewrite Hc. simpl. apply IH, Hs.
Qed.

Lemma pop_last (A : Type) (l : list A) (a : A) : pop (l ++ [a]) = Some a.
Proof.
  induction l as [| b l IH]; [reflexivity |].
  simpl. rewrite IH. destruct (l ++ [a])%list eqn:E; [| reflexivity].
  destruct l; discriminate.
Qed.

Lemma nonempty_true s : s <> "" -> nonempty s = true.
Proof. destruct s; [contradiction | reflexivity]. Qed.

Lemma last_segment seg slashes :
  no_slash seg = true -> seg <> "" -> only_slashes slashes = true ->
  filter nonempty (split "/" (seg ++ slashes)) = [seg].
Proof.
  intros Hseg Hne Hsl. destruct slashes as [| c slashes].
  - rewrite append_nil_r. rewrite (split_no_slash _ Hseg). simpl.
    rewrite (nonempty_true _ Hne). reflexivity.
  - unfold only_slashes in Hsl. simpl in Hsl.
    apply andb_prop in Hsl as [Hc Hsl]. apply Ascii.eqb_eq in Hc. subst c.
    rewrite split_app, filter_app, (split_no_slash _ Hseg).
    rewrite (split_only_slashes _ Hsl). simpl.
    rewrite (nonempty_true _ Hne). reflexivity.
Qed.

Lemma fileNameFromUrl_last pre seg slashes :
  (pre = "" \/ exists pre', pre = pre' ++ "/") ->
  no_slash seg = true -> seg <> "" -> only_slashes slashes = true ->
  fileNameFromUrl (pre ++ seg ++ slashes) = Some seg.
Proof.
  intros Hpre Hseg Hne Hsl. unfold fileNameFromUrl.
  destruct Hpre as [-> | [pre' ->]].
  - simpl. rewrite (last_segment _ _ Hseg Hne Hsl). reflexivity.
  - replace ((pre' ++ "/") ++ seg ++ slashes)
      with (pre' ++ String "/" (seg ++ slashes)).
    + rewrite split_app, filter_app, (last_segment _ _ Hseg Hne Hsl).
      apply pop_last.
    + rewrite append_assoc. reflexivity.
Qed.

Lemma download_generated urlPath blobType :
  only_slashes urlPath = true ->
  download urlPath blobType = "generated-image." ++ extensionFromType blobType.
Proof.
  intros H. unfold download, fileNameFromUrl.
  rewrite (split_only_slashes _ H). reflexivity.
Qed.

Lemma extensionFromType_subtype ty sub :
  no_slash ty = true -> no_slash sub = true ->
  extensionFromType (ty ++ "/" ++ sub) = if nonempty sub then sub else "png".
Proof.
  intros Hty Hsub. unfold extensionFromType.
  change (ty ++ "/" ++ sub) with (ty ++ String "/" sub).
  rewrite split_app, (split_no_slash _ Hty), (split_no_slash _ Hsub).
  reflexivity.
Qed.

(** C8.  The name of the downloaded file is the last non-empty segment
    of the path of the image address; when the path has no such segment
    it is "generated-image." followed by the subtype of the media type of
    the blob fetched, "png" when there is none. *)
Theorem download_name :
  (forall pre seg slashes blobType,
      (pre = "" \/ exists pre', pre = pre' ++ "/") ->
      no_slash seg = true -> seg <> "" -> only_slashes slashes = true ->
      download (pre ++ seg ++ slashes) blobType = seg) /\
  (forall urlPath ty sub,
      only_slashes urlPath = true ->
      no_slash ty = true -> no_slash sub = true -> sub <> "" ->
      download urlPath (ty ++ "/" ++ sub) = "generated-image." ++ sub) /\
  (forall urlPath blobType,
      only_slashes urlPath = true ->
      (no_slash blobType = true \/
       exists ty, no_slash ty = true /\ blobType = ty ++ "/") ->
      download urlPath blobType = "generated-image.png") /\
  download "/gen/abc.jpg" "image/jpeg" = "abc.jpg" /\
  download "/" "image/webp" = "generated-image.webp".
Proof.
  repeat split; try reflexivity.
  - intros pre seg slashes blobType Hpre Hseg Hne Hsl. unfold download.
    rewrite (fileNameFromUrl_last _ _ _ Hpre Hseg Hne Hsl), (nonempty_true _ Hne).
    reflexivity.
  - intros urlPath ty sub Hp Hty Hsub Hne.
    rewrite (download_generated _ _ Hp), (extensionFromType_subtype _ _ Hty Hsub).
    rewrite (nonempty_true _ Hne). reflexivity.
  - intros urlPath blobType Hp [Hb | [ty [Hty ->]]];
      rewrite (download_generated _ _ Hp).
    + unfold extensionFromType. rewrite (split_no_slash _ Hb). reflexivity.
    + change (ty ++ "/") with (ty ++ "/" ++ "").
      rewrite (extensionFromType_subtype ty "" Hty eq_refl). reflexivity.
Qed.

Lemma download_name_witness :
  download ("/gen/" ++ "abc.jpg" ++ "//") "image/jpeg" = "abc.jpg" /\
  download "//" ("image" ++ "/" ++ "webp") = "generated-image." ++ "webp" /\
  download "/" "" = "generated-image.png".
Proof.
  split; [| split].
  - apply (proj1 download_name "/gen/" "abc.jpg" "//" "image/jpeg").
    + right. exists "/gen". reflexivity.
    + reflexivity.
    + discriminate.
    + reflexivity.
  - apply (proj1 (proj2 download_name) "//" "image" "webp").
    + reflexivity.
    + reflexivity.
    + reflexivity.
    + discriminate.
  - apply (proj1 (proj2 (proj2 download_name)) "/" "").
    + reflexivity.
    + left. reflexivity.
Defined.

(* ================================================================= *)
(** ** The matcher and what a pattern matches *)

Lemma prev_after_app p a b :
  prev_after p (a ++ b) = prev_after (prev_after p a) b.
Proof. revert p. induction a as [| c a IH]; intros p; simpl; auto. Qed.

Lemma take_app w t :
  take (String.length (w ++ t) - String.length t) (w ++ t) = w.
Proof.
  rewrite length_append.
  replace (String.length w + String.length t - String.length t)
    with (String.length w) by lia.
  induction w as [| c w IH]; simpl.
  - destruct t; reflexivity.
  - rewrite IH. reflexivity.
Qed.

(** A match reads a prefix of the remaining input. *)
Lemma matches_suffix m r x y :
  matches m r x y ->
  exists w, rest x = w ++ rest y /\ prev y = prev_after (prev x) w.
Proof.
  induction 1 as
    [ x | c p s | c p s Hc | items c p s Hc
    | r1 r2 x y z _ [w1 [E1 P1]] _ [w2 [E2 P2]]
    | g r x
    | g r x y z _ [w1 [E1 P1]] _ _ [w2 [E2 P2]]
    | g r x
    | g r x y _ [w1 [E1 P1]] _
    | x Hx | x Hx ];
    try (exists ""; split; reflexivity);
    try (exists (str1 c); split; reflexivity).
  - exists (w1 ++ w2). rewrite append_assoc, <- E2, prev_after_app, <- P1. auto.
  - exists (w1 ++ w2). rewrite append_assoc, <- E2, prev_after_app, <- P1. auto.
  - exists w1. auto.
Qed.

Lemma matches_length m r x y :
  matches m r x y -> String.length (rest y) <= String.length (rest x).
Proof.
  intros H. apply matches_suffix in H as [w [E _]].
  rewrite E, length_append. lia.
Qed.

Lemma matched_spec x y w : rest x = w ++ rest y -> matched x y = w.
Proof. intros E. unfold matched. rewrite E. apply take_app. Qed.

Section Soundness.

Variable m : bool.

Lemma char_matcher_sound (f : ascii -> bool) k x z :
  char_matcher f k x = Some z ->
  exists c s, rest x = String c s /\ f c = true /\ k (mkState (Some c) s) = Some z.
Proof.
  unfold char_matcher. destruct (rest x) as [| c s]; [discriminate |].
  destruct (f c) eqn:E; [| discriminate]. intros H. exists c, s. auto.
Qed.

Lemma repeat_matcher_sound g r
  (IH : forall k x z, matcher m r k x = Some z ->
                      exists y, matches m r x y /\ k y = Some z) :
  forall fuel k x z,
    repeat_matcher (matcher m r) g k fuel x = Some z ->
    exists y, matches m (Star g r) x y /\ k y = Some z.
Proof.
  induction fuel as [| fuel IHf]; intros k x z H; simpl in H.
  - exists x. split; [constructor | exact H].
  - assert (Hbody : forall z',
      matcher m r (fun y => if same_index x y then None
                            else repeat_matcher (matcher m r) g k fuel y) x
      = Some z' ->
      exists y, matches m (Star g r) x y /\ k y = Some z').
    { intros z' Hb. apply IH in Hb as [y [Hxy Hd]].
      destruct (same_index x y) eqn:Hs; [discriminate |].
      apply IHf in Hd as [y' [Hyy' Hk]].
      exists y'. split; [| exact Hk]. eapply M_Star_more; eauto. }
    destruct g.
    + destruct (matcher m r _ x) as [z' |] eqn:Hb.
      * inversion H; subst z'. apply Hbody. reflexivity.
      * exists x. split; [constructor | exact H].
    + destruct (k x) as [z' |] eqn:Hk.
      * inversion H; subst z'. exists x. split; [constructor | exact Hk].
      * apply Hbody, H.
Qed.

(** Whatever the matcher returns comes from a match of the pattern
    followed by a success of the continuation. *)
Theorem matcher_sound r :
  forall k x z,
    matcher m r k x = Some z -> exists y, matches m r x y /\ k y = Some z.
Proof.
  induction r as [| c | | items | r1 IH1 r2 IH2 | g r IH | g r IH | |];
    intros k x z H; simpl in H.
  - exists x. split; [constructor | exact H].
  - apply char_matcher_sound in H as [a [s [E [Hc Hk]]]].
    apply Ascii.eqb_eq in Hc. subst a. destruct x as [p t]. simpl in E. subst t.
    eexists. split; [constructor | exact Hk].
  - apply char_matcher_sound in H as [a [s [E [Hc Hk]]]].
    apply negb_true_iff in Hc. destruct x as [p t]. simpl in E. subst t.
    eexists. split; [constructor; exact Hc | exact Hk].
  - apply char_matcher_sound in H as [a [s [E [Hc Hk]]]].
    destruct x as [p t]. simpl in E. subst t.
    eexists. split; [constructor; exact Hc | exact Hk].
  - apply IH1 in H as [y [H1 H]]. apply IH2 in H as [y' [H2 H]].
    exists y'. split; [econstructor; eauto | exact H].
  - apply (repeat_matcher_sound g r IH (S (String.length (rest x))) k x z).
    exact H.
  - assert (Hbody : forall z',
      matcher m r (fun y => if same_index x y then None else k y) x = Some z' ->
      exists y, matches m (Opt g r) x y /\ k y = Some z').
    { intros z' Hb. apply IH in Hb as [y [Hxy Hd]].
      destruct (same_index x y) eqn:Hs; [discriminate |].
      exists y. split; [apply M_Opt_some; assumption | exact Hd]. }
    destruct g.
    + destruct (matcher m r _ x) as [z' |] eqn:Hb.
      * inversion H; subst z'. apply Hbody. reflexivity.
      * exists x. split; [constructor | exact H].
    + destruct (k x) as [z' |] eqn:Hk.
      * inversion H; subst z'. exists x. split; [constructor | exact Hk].
      * apply Hbody, H.
  - destruct (at_line_start m x) eqn:E; [| discriminate].
    exists x. split; [constructor; exact E | exact H].
  - destruct (at_line_end m x) eqn:E; [| discriminate].
    exists x. split; [constructor; exact E | exact H].
Qed.

Lemma repeat_matcher_complete g r
  (IH : forall x y, matches m r x y -> forall k z, k y = Some z ->
                    exists z', matcher m r k x = Some z') :
  forall x y, matches m (Star g r) x y ->
  forall fuel k z, String.length (rest x) < fuel -> k y = Some z ->
  exists z', repeat_matcher (matcher m r) g k fuel x = Some z'.
Proof.
  intros x y H. remember (Star g r) as sr eqn:Esr.
  induction H as
    [ | | | | | g0 r0 x | g0 r0 x y z Hxy _ Hs Hyz IHyz | | | | ];
    try discriminate; inversion Esr; subst g0 r0; clear Esr;
    intros fuel k z' Hfuel Hk;
    (destruct fuel as [| fuel]; [lia |]); simpl.
  - destruct g.
    + destruct (matcher m r _ x); eauto.
    + rewrite Hk. eauto.
  - assert (Hd : exists z'',
      matcher m r (fun y0 => if same_index x y0 then None
                             else repeat_matcher (matcher m r) g k fuel y0) x
      = Some z'').
    { pose proof (matches_length _ _ _ _ Hxy) as Hle.
      unfold same_index in Hs. apply Nat.eqb_neq in Hs.
      destruct (IHyz eq_refl fuel k z') as [z'' Hz'']; [lia | exact Hk |].
      eapply IH; [exact Hxy |].
      unfold same_index. apply Nat.eqb_neq in Hs. rewrite Hs. exact Hz''. }
    destruct Hd as [z'' Hd]. destruct g.
    + rewrite Hd. eauto.
    + destruct (k x); eauto.
Qed.

(** Whenever the pattern can match and the continuation then succeeds,
    the matcher finds a result. *)
Theorem matcher_complete r :
  forall x y, matches m r x y ->
  forall k z, k y = Some z -> exists z', matcher m r k x = Some z'.
Proof.
  induction r as [| c | | items | r1 IH1 r2 IH2 | g r IH | g r IH | |];
    intros x y H k z Hk.
  - inversion H; subst. simpl. eauto.
  - inversion H; subst. simpl. unfold char_matcher. simpl.
    rewrite Ascii.eqb_refl. eauto.
  - inversion H; subst. simpl. unfold char_matcher. simpl.
    match goal with E : is_line_terminator _ = false |- _ => rewrite E end.
    simpl. eauto.
  - inversion H; subst. simpl. unfold char_matcher. simpl.
    match goal with E : class_matches _ _ = true |- _ => rewrite E end.
    eauto.
  - inversion H; subst. simpl.
    match goal with
      H1 : matches m r1 x ?y1, H2 : matches m r2 ?y1 y |- _ =>
        destruct (IH2 _ _ H2 k z Hk) as [z1 Hz1];
        apply (IH1 _ _ H1 _ z1 Hz1)
    end.
  - apply (repeat_matcher_complete g r IH x y H
             (S (String.length (rest x))) k z); [lia | exact Hk].
  - simpl. inversion H; subst.
    + destruct g.
      * destruct (matcher m r _ y); eauto.
      * rewrite Hk. eauto.
    + match goal with
        H1 : matches m r x y, Hs : same_index x y = false |- _ =>
          destruct (IH _ _ H1 (fun y0 => if same_index x y0 then None else k y0) z)
            as [z1 Hz1]; [rewrite Hs; exact Hk |]
      end.
      destruct g.
      * rewrite Hz1. eauto.
      * destruct (k x); eauto.
  - inversion H; subst. simpl.
    match goal with E : at_line_start _ _ = true |- _ => rewrite E end. eauto.
  - inversion H; subst. simpl.
    match goal with E : at_line_end _ _ = true |- _ => rewrite E end. eauto.
Qed.

End Soundness.

(* ================================================================= *)
(** ** The search for a match *)

Lemma append_cancel_r (a b c : string) : a ++ c = b ++ c -> a = b.
Proof.
  revert b. induction a as [| x a IH]; intros [| y b] H; simpl in H.
  - reflexivity.
  - apply (f_equal String.length) in H. simpl in H.
    rewrite length_append in H. lia.
  - apply (f_equal String.length) in H. simpl in H.
    rewrite length_append in H. lia.
  - inversion H. f_equal. auto.
Qed.

Lemma matcher_end m r x y : matcher m r Some x = Some y -> matches m r x y.
Proof.
  intros H. apply matcher_sound in H as [y' [Hm Hy]].
  inversion Hy. subst. exact Hm.
Qed.

Lemma matcher_finds m r x y :
  matches m r x y -> matcher m r Some x <> None.
Proof.
  intros H. destruct (matcher_complete m r x y H Some y eq_refl) as [z Hz].
  rewrite Hz. discriminate.
Qed.

Section Search.

Variables (m : bool) (r : regex).

(** What [exec] returns is a match, right after the text skipped. *)
Lemma exec_some s : forall p sk mt y,
  exec m r p s = Some (sk, mt, y) ->
  s = sk ++ mt ++ rest y /\
  matches m r (mkState (prev_after p sk) (mt ++ rest y)) y.
Proof.
  induction s as [| c s IH]; intros p sk mt y H; simpl in H.
  - destruct (matcher m r Some (mkState p "")) as [y' |] eqn:E; [| discriminate].
    inversion H; subst. apply matcher_end in E.
    destruct (matches_suffix _ _ _ _ E) as [w [Ew _]].
    rewrite (matched_spec _ _ _ Ew). simpl in *. rewrite <- Ew. auto.
  - destruct (matcher m r Some (mkState p (String c s))) as [y' |] eqn:E.
    + inversion H; subst. apply matcher_end in E.
      destruct (matches_suffix _ _ _ _ E) as [w [Ew _]].
      rewrite (matched_spec _ _ _ Ew). simpl in *. rewrite <- Ew. auto.
    + destruct (exec m r (Some c) s) as [[[sk' mt'] y'] |] eqn:E2; [| discriminate].
      inversion H; subst. apply IH in E2 as [Es Hm]. simpl.
      split; [f_equal; exact Es | exact Hm].
Qed.

(** No match begins inside the text skipped. *)
Lemma exec_skipped s : forall p sk mt y,
  exec m r p s = Some (sk, mt, y) ->
  forall a c b, sk = a ++ String c b ->
  matcher m r Some (mkState (prev_after p a) (String c b ++ mt ++ rest y)) = None.
Proof.
  induction s as [| c s IH]; intros p sk mt y H; simpl in H.
  - destruct (matcher m r Some (mkState p "")) as [y' |] eqn:E; [| discriminate].
    inversion H; subst. intros [| c' a] d b Hsk; discriminate.
  - destruct (matcher m r Some (mkState p (String c s))) as [y' |] eqn:E.
    + inversion H; subst. intros [| c' a] d b Hsk; discriminate.
    + destruct (exec m r (Some c) s) as [[[sk' mt'] y'] |] eqn:E2; [| discriminate].
      inversion H; subst sk mt y. clear H.
      pose proof (exec_some _ _ _ _ _ E2) as [Es _].
      intros [| c' a] d b Hsk; simpl in Hsk; inversion Hsk; subst.
      * simpl. exact E.
      * simpl. eapply IH; eauto.
Qed.

(** When [exec] fails, no match begins anywhere. *)
Lemma exec_none s : forall p,
  exec m r p s = None ->
  forall a b, s = a ++ b ->
  matcher m r Some (mkState (prev_after p a) b) = None.
Proof.
  induction s as [| c s IH]; intros p H a b Hs; simpl in H.
  - destruct a; [| discriminate]. simpl in Hs. subst b. simpl.
    destruct (matcher m r Some (mkState p "")); [discriminate | reflexivity].
  - destruct (matcher m r Some (mkState p (String c s))) as [y' |] eqn:E;
      [discriminate |].
    destruct (exec m r (Some c) s) as [[[sk' mt'] y'] |] eqn:E2; [discriminate |].
    destruct a as [| c' a]; simpl in Hs.
    + subst b. exact E.
    + inversion Hs; subst. simpl. apply IH; auto.
Qed.

(** Erasing a match never makes the text longer. *)
Lemma replace_first_erase_length s :
  String.length (replace_first m r (Template "") s) <= String.length s.
Proof.
  unfold replace_first.
  destruct (exec m r None s) as [[[sk mt] y] |] eqn:E; [| lia].
  apply exec_some in E as [Es _]. rewrite Es. simpl.
  rewrite !length_append. lia.
Qed.

End Search.

(* ================================================================= *)
(** ** Fences, in general *)

Lemma startsWith_fence s :
  startsWith s "```" = true <-> exists t, s = "```" ++ t.
Proof.
  split.
  - unfold startsWith. intros H.
    destruct s as [| a [| b [| c t]]]; try discriminate H;
      repeat match type of H with
             | context [Ascii.eqb ?u ?v] => destruct (Ascii.eqb_spec u v)
             end; try discriminate H.
    subst. exists t. reflexivity.
  - intros [t ->]. reflexivity.
Qed.

Lemma line_start_spec x : at_line_start true x = line_start (prev x).
Proof. unfold at_line_start, line_start. destruct (prev x); reflexivity. Qed.

Lemma fence_line_from_eq p s :
  fence_line_from p s =
  line_start p && startsWith s "```"
  || match s with
     | EmptyString => false
     | String c s' => fence_line_from (Some c) s'
     end.
Proof. destruct s; reflexivity. Qed.

Lemma fence_line_intro a : forall p b,
  line_start (prev_after p a) = true -> startsWith b "```" = true ->
  fence_line_from p (a ++ b) = true.
Proof.
  induction a as [| c a IH]; intros p b Hl Hs; simpl in *.
  - rewrite fence_line_from_eq, Hl, Hs. reflexivity.
  - rewrite (IH _ _ Hl Hs). apply orb_true_r.
Qed.

Lemma fence_line_elim s : forall p,
  fence_line_from p s = true ->
  exists a b, s = a ++ b /\ line_start (prev_after p a) = true
              /\ startsWith b "```" = true.
Proof.
  induction s as [| c s IH]; intros p H; rewrite fence_line_from_eq in H;
    apply orb_prop in H as [H | H]; try discriminate.
  - apply andb_prop in H as [Hl Hs]. exists "", "". auto.
  - apply andb_prop in H as [Hl Hs]. exists "", (String c s). auto.
  - apply IH in H as [a [b [E [Hl Hs]]]].
    exists (String c a), b. simpl. rewrite E. auto.
Qed.

(** A pattern that begins with [^```] matches only at the start of a
    line that begins with a fence, and reads the three backticks. *)
Lemma fence_prefix_inv m tail x y :
  matches m (Seq Bol (Seq (Char "`") (Seq (Char "`") (Seq (Char "`") tail)))) x y ->
  at_line_start m x = true /\
  exists t, rest x = "```" ++ t /\ matches m tail (mkState (Some "`"%char) t) y.
Proof.
  intros H. invert_matches. split; [assumption |].
  eexists. split; [reflexivity | assumption].
Qed.

Lemma fence_prefix_intro m tail p t y :
  at_line_start m (mkState p ("```" ++ t)) = true ->
  matches m tail (mkState (Some "`"%char) t) y ->
  matches m (Seq Bol (Seq (Char "`") (Seq (Char "`") (Seq (Char "`") tail))))
          (mkState p ("```" ++ t)) y.
Proof.
  intros Hl Ht.
  eapply M_Seq; [apply M_Bol; exact Hl |].
  eapply M_Seq; [apply M_Char |].
  eapply M_Seq; [apply M_Char |].
  eapply M_Seq; [apply M_Char | exact Ht].
Qed.

(** [[\s\S]*] can read everything that is left. *)
Lemma any_star_all m g t : forall p,
  matches m (Star g (Class [CSpace; CNonSpace])) (mkState p t)
          (mkState (prev_after p t) "").
Proof.
  induction t as [| c t IH]; intros p; simpl.
  - apply M_Star_stop.
  - eapply M_Star_more; [apply M_Class | | apply IH].
    + unfold class_matches. simpl. destruct (is_space c); reflexivity.
    + unfold same_index. cbn [rest String.length]. apply Nat.eqb_neq. lia.
Qed.

Lemma fence_block_matches p t :
  line_start p = true ->
  exists y, matches true (pattern fence_block) (mkState p ("```" ++ t)) y.
Proof.
  intros Hl. eexists. cbv [fence_block pattern seq fold_right].
  apply fence_prefix_intro.
  - rewrite line_start_spec. exact Hl.
  - eapply M_Seq; [apply M_Star_stop |].
    eapply M_Seq; [apply M_Opt_none |].
    eapply M_Seq; [apply any_star_all |].
    eapply M_Seq; [apply M_Eol; reflexivity | apply M_Empty].
Qed.

Lemma exec_fence_block p s :
  fence_line_from p s = true ->
  exists sk t y,
    exec true (pattern fence_block) p s = Some (sk, "```" ++ t, y).
Proof.
  intros H. apply fence_line_elim in H as [a [b [E [Hl Hs]]]].
  apply startsWith_fence in Hs as [t Ht]. subst b.
  destruct (fence_block_matches _ t Hl) as [y Hy].
  apply matcher_finds in Hy.
  destruct (exec true (pattern fence_block) p s) as [[[sk mt] y'] |] eqn:Ex.
  - pose proof (exec_some _ _ _ _ _ _ _ Ex) as [_ Hm].
    cbv [fence_block pattern seq fold_right] in Hm.
    apply fence_prefix_inv in Hm as [_ [t' [Et Hm]]]. simpl in Et.
    apply matches_suffix in Hm as [w [Ew _]]. simpl in Ew.
    exists sk, w, y'. do 3 f_equal.
    apply (append_cancel_r _ _ (rest y')).
    rewrite Et, Ew. simpl. reflexivity.
  - exfalso. apply Hy. apply (exec_none _ _ _ _ Ex). exact E.
Qed.

Lemma exec_fence_block_none p s :
  fence_line_from p s = false -> exec true (pattern fence_block) p s = None.
Proof.
  intros H.
  destruct (exec true (pattern fence_block) p s) as [[[sk mt] y] |] eqn:Ex;
    [| reflexivity].
  apply exec_some in Ex as [Es Hm].
  cbv [fence_block pattern seq fold_right] in Hm.
  apply fence_prefix_inv in Hm as [Hl [t [Et _]]]. simpl in Hl, Et.
  rewrite line_start_spec in Hl. simpl in Hl.
  rewrite Es, (fence_line_intro sk p _ Hl) in H; [discriminate |].
  apply startsWith_fence. exists t. exact Et.
Qed.

(** The callback removes at least the three backticks of the opening
    fence. *)
Lemma strip_match_shorter t :
  String.length (strip_match ("```" ++ t)) <= String.length t.
Proof.
  unfold strip_match.
  replace (startsWith ("```" ++ t) "```") with true
    by (symmetry; apply startsWith_fence; eauto).
  unfold replace at 1 2. cbn [global fence_open fence_close multiline].
  etransitivity; [apply replace_first_erase_length |].
  unfold replace_first.
  assert (Hm : matches false (pattern fence_open)
                 (mkState None ("```" ++ t)) (mkState (Some "`"%char) t)).
  { cbv [fence_open pattern seq fold_right]. apply fence_prefix_intro.
    - reflexivity.
    - eapply M_Seq; [apply M_Star_stop |].
      eapply M_Seq; [apply M_Opt_none | apply M_Empty]. }
  apply matcher_finds in Hm.
  destruct (exec false (pattern fence_open) None ("```" ++ t))
    as [[[sk mt] y] |] eqn:Ex.
  - assert (sk = "") as ->.
    { destruct sk as [| c sk]; [reflexivity |]. exfalso. apply Hm.
      pose proof (exec_some _ _ _ _ _ _ _ Ex) as [Es _].
      rewrite Es.
      apply (exec_skipped _ _ _ _ _ _ _ Ex "" c sk). reflexivity. }
    apply exec_some in Ex as [Es Hy].
    cbv [fence_open pattern seq fold_right] in Hy.
    apply fence_prefix_inv in Hy as [_ [t' [Et Hy]]].
    apply matches_length in Hy. cbn [rest prev_after append] in *.
    rewrite <- Es in Et. inversion Et; subst t'. exact Hy.
  - exfalso. apply Hm. apply (exec_none _ _ _ _ Ex "" _). reflexivity.
Qed.

Lemma unFenced_blog s :
  unFenced blog_type s =
  replace_first true (pattern fence_block) (Callback strip_match) s.
Proof. reflexivity. Qed.

(** The step leaves a text alone exactly when no line of it begins with
    a fence, and shortens it otherwise. *)
Lemma unFenced_without_fence s :
  has_fence_line s = false -> unFenced blog_type s = s.
Proof.
  intros H. rewrite unFenced_blog. unfold replace_first.
  rewrite (exec_fence_block_none None s H). reflexivity.
Qed.

Lemma unFenced_with_fence s :
  has_fence_line s = true ->
  String.length (unFenced blog_type s) < String.length s.
Proof.
  intros H. rewrite unFenced_blog. unfold replace_first.
  destruct (exec_fence_block None s H) as [sk [t [y Ex]]]. rewrite Ex.
  apply exec_some in Ex as [Es _]. rewrite Es.
  cbn [replacement_text]. rewrite !length_append.
  pose proof (strip_match_shorter t).
  change (String.length "```") with 3. lia.
Qed.

Lemma unFenced_fixed_iff s :
  unFenced blog_type s = s <-> has_fence_line s = false.
Proof.
  split.
  - intros H. destruct (has_fence_line s) eqn:E; [| reflexivity].
    apply unFenced_with_fence in E. rewrite H in E. lia.
  - apply unFenced_without_fence.
Qed.

(** C3.  For blog content the text does not come back unchanged as soon
    as one of its lines begins with three backticks, whether or not the
    fence is closed and wherever the line stands: an opening fence
    without a closing one is removed, and so is the opening line of a
    block in the middle of the text. *)
Theorem unFenced_strips_lone_opener :
  (forall s, has_fence_line s = true -> unFenced blog_type s <> s) /\
  unFenced blog_type ("```js" ++ nl ++ "code") = "code" /\
  unFenced blog_type
    ("Intro" ++ nl ++ "```js" ++ nl ++ "code" ++ nl ++ "```" ++ nl ++ "Outro")
  = "Intro" ++ nl ++ "code" ++ nl ++ "```" ++ nl ++ "Outro".
Proof.
  split; [| split; vm_compute; reflexivity].
  intros s H E. apply unFenced_with_fence in H. rewrite E in H. lia.
Qed.

Lemma unFenced_strips_lone_opener_witness :
  unFenced blog_type ("```js" ++ nl ++ "code") <> "```js" ++ nl ++ "code".
Proof.
  apply (proj1 unFenced_strips_lone_opener ("```js" ++ nl ++ "code")).
  reflexivity.
Defined.

(* ================================================================= *)
(** ** Escaping and the image pattern *)

Lemma class_of_chars l c :
  class_matches (map CChar l) c = existsb (Ascii.eqb c) l.
Proof.
  unfold class_matches. induction l as [| d l IH]; simpl; [| rewrite IH];
    reflexivity.
Qed.

Lemma metacharacters_class c :
  class_matches (map CChar (list_ascii_of_string ".*+?^${}()|[]\")) c
  = is_metacharacter c.
Proof. apply class_of_chars. Qed.

Lemma escaped_app sk t :
  (forall a c b, sk = a ++ String c b -> is_metacharacter c = false) ->
  escaped (sk ++ t) = sk ++ escaped t.
Proof.
  induction sk as [| c sk IH]; intros H; simpl; [reflexivity |].
  rewrite (H "" c sk eq_refl), IH; [reflexivity |].
  intros a d b E. apply (H (String c a) d b). simpl. rewrite E. reflexivity.
Qed.

Lemma char_class_match items x y :
  matches false (Class items) x y ->
  exists c, rest x = String c (rest y) /\ prev y = Some c
            /\ class_matches items c = true.
Proof. intros H. inversion H; subst. exists c. auto. Qed.

Lemma replace_from_escaped fuel : forall s p,
  String.length s < fuel ->
  replace_from fuel false (pattern metacharacters) (Template "\$&") p s
  = escaped s.
Proof.
  induction fuel as [| fuel IH]; intros s p Hlen; [lia |].
  cbn [replace_from].
  destruct (exec false (pattern metacharacters) p s) as [[[sk mt] y] |] eqn:Ex.
  - pose proof (exec_skipped _ _ _ _ _ _ _ Ex) as Hsk.
    apply exec_some in Ex as [Es Hm].
    apply char_class_match in Hm as [c [Ec [_ Hc]]]. cbn [rest] in Ec.
    assert (mt = str1 c) as ->.
    { apply (append_cancel_r _ _ (rest y)). rewrite Ec. reflexivity. }
    cbn [pattern metacharacters] in Hc. rewrite metacharacters_class in Hc.
    rewrite Es, escaped_app.
    + destruct y as [py ry]. cbn [rest prev str1 append escaped] in *.
      rewrite Hc. cbn [replacement_text substitute append].
      rewrite IH; [reflexivity |].
      rewrite Es, !length_append in Hlen. simpl in Hlen. lia.
    + intros a d b E.
      specialize (Hsk a d b E). cbn [matcher pattern metacharacters] in Hsk.
      unfold char_matcher in Hsk. cbn [rest append] in Hsk.
      rewrite metacharacters_class in Hsk.
      destruct (is_metacharacter d); [discriminate | reflexivity].
  - rewrite <- (append_nil_r s) at 2. rewrite escaped_app; [rewrite append_nil_r; reflexivity|].
    intros a d b E.
    pose proof (exec_none _ _ _ _ Ex a (String d b) E) as Hn.
    cbn [matcher pattern metacharacters] in Hn.
    unfold char_matcher in Hn. cbn [rest] in Hn.
    rewrite metacharacters_class in Hn.
    destruct (is_metacharacter d); [discriminate | reflexivity].
Qed.

(** [escapeRegExp] puts a backslash before each metacharacter and
    changes nothing else. *)
Lemma escapeRegExp_escaped u : escapeRegExp u = escaped u.
Proof.
  unfold escapeRegExp, replace, replace_all. cbn [global metacharacters multiline].
  apply replace_from_escaped. lia.
Qed.

Lemma metacharacter_is_syntax c : is_metacharacter c = is_syntax_character c.
Proof. destruct c as [[] [] [] [] [] [] [] []]; reflexivity. Qed.

Lemma tokens_plain c t :
  is_metacharacter c = false ->
  tokens (String c t) = option_map (cons (TChar c)) (tokens t).
Proof.
  destruct c as [[] [] [] [] [] [] [] []]; intros H;
    solve [discriminate H | reflexivity].
Qed.

Lemma tokens_backslash c t :
  is_metacharacter c = true ->
  tokens (String backslash (String c t)) = option_map (cons (TChar c)) (tokens t).
Proof.
  intros H. rewrite metacharacter_is_syntax in H.
  cbn [tokens]. replace (Ascii.eqb backslash backslash) with true by reflexivity.
  rewrite H. reflexivity.
Qed.

(** The escaped text is read back as the characters of the text. *)
Lemma tokens_escaped u t :
  tokens (escaped u ++ t)
  = option_map (app (map TChar (list_ascii_of_string u))) (tokens t).
Proof.
  induction u as [| c u IH]; cbn [escaped list_ascii_of_string map].
  - simpl. destruct (tokens t); reflexivity.
  - destruct (is_metacharacter c) eqn:Hc; cbn [append].
    + rewrite (tokens_backslash _ _ Hc), IH. destruct (tokens t); reflexivity.
    + rewrite (tokens_plain _ _ Hc), IH. destruct (tokens t); reflexivity.
Qed.

Lemma terms_chars l : terms (map TChar l) = Some (seq (map Char l)).
Proof.
  induction l as [| c l IH]; [reflexivity |].
  cbn [map terms atom]. destruct l as [| d l].
  - reflexivity.
  - cbn [map] in *. rewrite IH. reflexivity.
Qed.

Lemma list_ascii_app a b :
  list_ascii_of_string (a ++ b)
  = (list_ascii_of_string a ++ list_ascii_of_string b)%list.
Proof. induction a as [| c a IH]; simpl; [| rewrite IH]; reflexivity. Qed.

Lemma tokens_lazy_dot t :
  tokens (String "." (String "*" (String "?" t)))
  = option_map (app [TDot; TStar; TQuest]) (tokens t).
Proof. cbn [tokens]. simpl. destruct (tokens t); reflexivity. Qed.

Lemma terms_char c d ts :
  terms (TChar c :: TChar d :: ts)
  = option_map (Seq (Char c)) (terms (TChar d :: ts)).
Proof. reflexivity. Qed.

Lemma terms_char_dot c ts :
  terms (TChar c :: TDot :: ts) = option_map (Seq (Char c)) (terms (TDot :: ts)).
Proof. reflexivity. Qed.

Lemma terms_lazy_dot ts :
  terms (TDot :: TStar :: TQuest :: ts)
  = option_map (Seq (Star false Dot)) (terms ts).
Proof. reflexivity. Qed.

Lemma image_tokens u :
  tokens ("!\[.*?\]\(" ++ escaped u ++ "\)")
  = Some (TChar "!" :: TChar "[" :: TDot :: TStar :: TQuest :: TChar "]"
          :: map TChar (list_ascii_of_string ("(" ++ u ++ ")"))).
Proof.
  change ("!\[.*?\]\(" ++ escaped u ++ "\)")
    with (String "!" (String backslash (String "["
          (String "." (String "*" (String "?" (String backslash (String "]"
          (String backslash (String "(" (escaped u ++ "\)"))))))))))).
  rewrite (tokens_plain "!"), (tokens_backslash "["), tokens_lazy_dot,
    (tokens_backslash "]"), (tokens_backslash "("), tokens_escaped
    by reflexivity.
  replace (tokens "\)") with (Some (cons (TChar ")") nil)) by reflexivity.
  cbn [option_map app append list_ascii_of_string map].
  rewrite list_ascii_app, map_app. reflexivity.
Qed.

(** The pattern built from the escaped address is the image pattern: the
    constructor does not throw and the address is matched literally. *)
Lemma RegExp_new_image u :
  RegExp_new ("!\[.*?\]\(" ++ escapeRegExp u ++ "\)") "g"
  = Normal (mkRegExp (image_pattern u) true false).
Proof.
  rewrite escapeRegExp_escaped. unfold RegExp_new. rewrite image_tokens.
  rewrite terms_char, terms_char_dot, terms_lazy_dot.
  change (TChar "]" :: map TChar (list_ascii_of_string ("(" ++ u ++ ")")))
    with (map TChar (list_ascii_of_string ("](" ++ u ++ ")"))).
  rewrite terms_chars. reflexivity.
Qed.

(* ================================================================= *)
(** ** Matches of the image pattern *)

Lemma dot_star_inv m g x y :
  matches m (Star g Dot) x y ->
  exists w, no_line_terminator w = true /\ rest x = w ++ rest y.
Proof.
  intros H. remember (Star g Dot) as r eqn:Er.
  induction H as
    [ | | | | | g0 r0 x | g0 r0 x y z Hxy _ Hs Hyz IHyz | | | | ];
    try discriminate; inversion Er; subst g0 r0.
  - exists "". auto.
  - destruct (IHyz eq_refl) as [w [Hw Ew]].
    inversion Hxy; subst. cbn [rest] in *.
    exists (String c w). split.
    + unfold no_line_terminator in *. simpl.
      match goal with E : is_line_terminator c = false |- _ => rewrite E end.
      exact Hw.
    + simpl. rewrite Ew. reflexivity.
Qed.

Lemma dot_star_intro m g w : forall p t,
  no_line_terminator w = true ->
  matches m (Star g Dot) (mkState p (w ++ t)) (mkState (prev_after p w) t).
Proof.
  unfold no_line_terminator.
  induction w as [| c w IH]; intros p t H; simpl in *.
  - apply M_Star_stop.
  - apply andb_prop in H as [Hc Hw]. apply negb_true_iff in Hc.
    eapply M_Star_more; [apply M_Dot; exact Hc | | apply IH; exact Hw].
    unfold same_index. cbn [rest String.length]. apply Nat.eqb_neq. lia.
Qed.

Lemma literal_cons c s : literal (String c s) = Seq (Char c) (literal s).
Proof. reflexivity. Qed.

Lemma literal_inv m s : forall x y,
  matches m (literal s) x y -> rest x = s ++ rest y.
Proof.
  induction s as [| c s IH]; intros x y H.
  - inversion H; subst. reflexivity.
  - rewrite literal_cons in H. invert_matches.
    match goal with H' : matches m (literal s) _ _ |- _ => apply IH in H' end.
    cbn [rest] in *. simpl. congruence.
Qed.

Lemma literal_intro m s : forall p t,
  matches m (literal s) (mkState p (s ++ t)) (mkState (prev_after p s) t).
Proof.
  induction s as [| c s IH]; intros p t.
  - apply M_Empty.
  - rewrite literal_cons. simpl. eapply M_Seq; [apply M_Char | apply IH].
Qed.

Lemma directive_shape alt u t :
  directive alt u ++ t
  = String "!" (String "[" (alt ++ String "]" (String "(" ((u ++ ")") ++ t)))).
Proof.
  unfold directive. simpl. rewrite !append_assoc. simpl.
  rewrite !append_assoc. reflexivity.
Qed.

(** What the image pattern matches is a directive for the address, with
    an alternative text that stays on one line. *)
Lemma image_match_inv u x y :
  matches false (image_pattern u) x y ->
  exists alt, no_line_terminator alt = true /\ rest x = directive alt u ++ rest y.
Proof.
  unfold image_pattern. intros H. invert_matches.
  repeat match goal with
  | H' : matches _ (Star _ Dot) _ _ |- _ =>
      apply dot_star_inv in H' as [alt [Halt Ealt]]
  | H' : matches _ (literal _) _ _ |- _ => apply literal_inv in H'
  end.
  cbn [rest] in *. exists alt. split; [exact Halt |].
  rewrite directive_shape. congruence.
Qed.

Lemma image_match_intro u alt p t :
  no_line_terminator alt = true ->
  exists y, matches false (image_pattern u) (mkState p (directive alt u ++ t)) y.
Proof.
  intros H. eexists. rewrite directive_shape. unfold image_pattern.
  eapply M_Seq; [apply M_Char |].
  eapply M_Seq; [apply M_Char |].
  eapply M_Seq; [apply dot_star_intro; exact H |].
  eapply M_Seq; [apply M_Char |].
  eapply M_Seq; [apply M_Char | apply literal_intro].
Qed.

(** A text in which no match begins holds no directive, whatever
    follows it. *)
Lemma no_match_no_occurrence u p s after :
  (forall a c b, s = a ++ String c b ->
     matcher false (image_pattern u) Some
       (mkState (prev_after p a) (String c b ++ after)) = None) ->
  no_occurrence u s.
Proof.
  intros H a alt b Halt E.
  destruct (image_match_intro u alt (prev_after p a) (b ++ after) Halt)
    as [y Hy].
  apply matcher_finds in Hy. apply Hy.
  rewrite directive_shape in E. rewrite directive_shape.
  rewrite <- (H a _ _ E). do 2 f_equal. simpl.
  rewrite !append_assoc. simpl. rewrite !append_assoc. reflexivity.
Qed.

Lemma directive_length alt u : 1 <= String.length (directive alt u).
Proof. unfold directive. simpl. lia. Qed.

(** The replacement with the [g] flag cuts the text into pieces: texts
    kept, which hold no directive, and directives taken out. *)
Lemma replace_from_image u fuel : forall s p,
  String.length s < fuel ->
  exists pieces tail,
    s = with_markup u pieces tail /\
    replace_from fuel false (image_pattern u) (Template "") p s
    = without_markup pieces tail /\
    Forall (fun piece => no_occurrence u (fst piece)
                         /\ no_line_terminator (snd piece) = true) pieces /\
    no_occurrence u tail.
Proof.
  induction fuel as [| fuel IH]; intros s p Hlen; [lia |].
  cbn [replace_from].
  destruct (exec false (image_pattern u) p s) as [[[sk mt] y] |] eqn:Ex.
  - pose proof (exec_skipped _ _ _ _ _ _ _ Ex) as Hsk.
    apply exec_some in Ex as [Es Hm].
    apply image_match_inv in Hm as [alt [Halt Em]]. cbn [rest] in Em.
    apply append_cancel_r in Em. subst mt.
    pose proof (directive_length alt u) as Hd.
    destruct (IH (rest y) (prev y)) as [pieces [tail [Er [Ek [Hp Ht]]]]].
    { rewrite Es, !length_append in Hlen. lia. }
    exists ((sk, alt) :: pieces), tail. repeat split.
    + cbn [with_markup]. rewrite <- Er. exact Es.
    + cbn [without_markup replacement_text substitute].
      rewrite <- Ek. unfold directive at 1. reflexivity.
    + constructor; [| exact Hp]. split; [| exact Halt]. cbn [fst].
      apply (no_match_no_occurrence u p sk (directive alt u ++ rest y)).
      intros a c b E. apply Hsk. exact E.
    + exact Ht.
  - exists [], s. repeat split; [constructor |].
    apply (no_match_no_occurrence u p s ""). intros a c b E.
    rewrite append_nil_r. apply (exec_none _ _ _ _ Ex). exact E.
Qed.

(* ================================================================= *)
(** ** What the fence patterns match, exactly *)

Lemma same_index_step p q c s :
  same_index (mkState p (String c s)) (mkState q s) = false.
Proof. unfold same_index. cbn [rest String.length]. apply Nat.eqb_neq. lia. Qed.

Lemma matcher_class m items k x :
  matcher m (Class items) k x = char_matcher (class_matches items) k x.
Proof. reflexivity. Qed.

(** A greedy [[...]*] reads all the characters of the class, up to one
    that is not in it, when what follows the pattern succeeds there. *)
Lemma greedy_class_star m items k z : forall w p t fuel,
  forallb (class_matches items) (list_ascii_of_string w) = true ->
  match t with
  | EmptyString => True
  | String c _ => class_matches items c = false
  end ->
  k (mkState (prev_after p w) t) = Some z ->
  String.length (w ++ t) < fuel ->
  repeat_matcher (matcher m (Class items)) true k fuel (mkState p (w ++ t))
  = Some z.
Proof.
  induction w as [| c w IH]; intros p t fuel Hw Ht Hk Hlen;
    (destruct fuel as [| fuel]; [lia |]); cbn [repeat_matcher];
    rewrite matcher_class.
  - unfold char_matcher. cbn [rest append prev_after] in *.
    destruct t as [| c t]; [exact Hk |]. rewrite Ht. exact Hk.
  - simpl in Hw. apply andb_prop in Hw as [Hc Hw].
    unfold char_matcher. cbn [rest append]. rewrite Hc, same_index_step.
    cbn [prev_after] in Hk. simpl in Hlen.
    rewrite (IH (Some c) t fuel Hw Ht Hk); [reflexivity | lia].
Qed.

(** A lazy [[\s\S]*?] stops at the first position where what follows
    the pattern succeeds. *)
Lemma lazy_any_star m k z : forall w p t fuel,
  (forall a c b, w = a ++ String c b ->
     k (mkState (prev_after p a) (String c b ++ t)) = None) ->
  k (mkState (prev_after p w) t) = Some z ->
  String.length (w ++ t) < fuel ->
  repeat_matcher (matcher m (Class [CSpace; CNonSpace])) false k fuel
    (mkState p (w ++ t)) = Some z.
Proof.
  induction w as [| c w IH]; intros p t fuel Hno Hk Hlen;
    (destruct fuel as [| fuel]; [lia |]); cbn [repeat_matcher].
  - cbn [append prev_after] in *. rewrite Hk. reflexivity.
  - rewrite (Hno "" c w eq_refl : k (mkState p (String c w ++ t)) = None).
    rewrite matcher_class. unfold char_matcher. cbn [rest append].
    replace (class_matches [CSpace; CNonSpace] c) with true
      by (unfold class_matches; simpl; destruct (is_space c); reflexivity).
    rewrite same_index_step. cbn [prev_after] in Hk. simpl in Hlen.
    apply IH; [| exact Hk | lia].
    intros a d b E. apply (Hno (String c a) d b). simpl. rewrite E. reflexivity.
Qed.

(** The end of a line that holds no line terminator is where [$] first
    holds. *)
Lemma line_end_first line more p :
  no_line_terminator line = true ->
  forall a c b, line = a ++ String c b ->
  matcher true (Seq Eol Empty) Some
    (mkState (prev_after p a) (String c b ++ nl ++ more)) = None.
Proof.
  intros Hl a c b E. cbn [matcher]. unfold at_line_end. cbn [rest append].
  unfold no_line_terminator in Hl. rewrite E, list_ascii_app, forallb_app in Hl.
  apply andb_prop in Hl as [_ Hl]. simpl in Hl.
  apply andb_prop in Hl as [Hc _]. apply negb_true_iff in Hc.
  rewrite Hc. reflexivity.
Qed.

Lemma tag_ends_at_newline t :
  match nl ++ t with
  | EmptyString => True
  | String c _ => class_matches tag_class c = false
  end.
Proof. reflexivity. Qed.

(** On a block that opens with a fence, a tag and a line feed, the
    pattern of [unFenced] matches the opening line and the line after it,
    and nothing more. *)
Lemma fence_block_first_lines tag line more :
  alphanumeric tag = true -> no_line_terminator line = true ->
  matcher true (pattern fence_block) Some
    (mkState None ("```" ++ tag ++ nl ++ line ++ nl ++ more))
  = Some (mkState (prev_after (Some LF) line) (nl ++ more)).
Proof.
  intros Htag Hline. cbv [fence_block pattern seq fold_right].
  cbn [matcher at_line_start prev]. unfold char_matcher at 1 2 3.
  cbn [rest append]. rewrite !Ascii.eqb_refl.
  apply (greedy_class_star true tag_class);
    [exact Htag | apply tag_ends_at_newline | | cbn [rest]; lia].
  cbn [matcher]. unfold char_matcher at 1. cbn [rest append nl str1].
  rewrite Ascii.eqb_refl, same_index_step.
  rewrite (lazy_any_star true _ (mkState (prev_after (Some LF) line) (nl ++ more))
             line (Some LF) (nl ++ more));
    [reflexivity | | reflexivity | exact (Nat.lt_succ_diag_r _)].
  intros a c b E. exact (line_end_first line more (Some LF) Hline a c b E).
Qed.

Lemma fence_open_first_line tag line :
  alphanumeric tag = true ->
  matcher false (pattern fence_open) Some
    (mkState None ("```" ++ tag ++ nl ++ line))
  = Some (mkState (Some LF) line).
Proof.
  intros Htag. cbv [fence_open pattern seq fold_right].
  cbn [matcher at_line_start prev]. unfold char_matcher at 1 2 3.
  cbn [rest append]. rewrite !Ascii.eqb_refl.
  apply (greedy_class_star false tag_class);
    [exact Htag | apply tag_ends_at_newline | | cbn [rest]; lia].
  cbn [matcher]. unfold char_matcher at 1. cbn [rest append nl str1].
  rewrite Ascii.eqb_refl, same_index_step. reflexivity.
Qed.

Lemma exec_at_once m r p s y w :
  matcher m r Some (mkState p s) = Some y -> s = w ++ rest y ->
  exec m r p s = Some ("", w, y).
Proof.
  intros Hm Es.
  assert (Hw : matched (mkState p s) y = w) by (apply matched_spec; exact Es).
  destruct s as [| c s]; cbn [exec]; rewrite Hm, Hw; reflexivity.
Qed.

(** For blog content that opens with a fence line, the step removes the
    opening line, removes a fence that ends the line after it, and leaves
    every later line, a closing fence included, as it is. *)
Lemma unFenced_first_lines tag line more :
  alphanumeric tag = true -> no_line_terminator line = true ->
  unFenced blog_type ("```" ++ tag ++ nl ++ line ++ nl ++ more)
  = replace line fence_close (Template "") ++ nl ++ more.
Proof.
  intros Htag Hline. rewrite unFenced_blog. unfold replace_first.
  rewrite (exec_at_once _ _ _ _ _ ("```" ++ tag ++ nl ++ line)
             (fence_block_first_lines tag line more Htag Hline)).
  - cbn [replacement_text rest]. unfold strip_match.
    replace (startsWith ("```" ++ tag ++ nl ++ line) "```") with true
      by (symmetry; apply startsWith_fence; eauto).
    unfold replace at 2. cbn [global fence_open multiline]. unfold replace_first.
    rewrite (exec_at_once _ _ _ _ _ ("```" ++ tag ++ nl)
               (fence_open_first_line tag line Htag)).
    + reflexivity.
    + cbn [rest]. rewrite !append_assoc. reflexivity.
  - cbn [rest]. rewrite !append_assoc. reflexivity.
Qed.

(** C2.  For blog content that opens with a fence line, only the opening
    line and a fence at the end of the line after it are removed: every
    later line is left as it is, so the closing fence of a block stays.
    The specification's example gives "# Title", "Body" and the closing
    fence, not the inner text alone. *)
Theorem unFenced_keeps_closing_fence :
  (forall tag line more,
      alphanumeric tag = true -> no_line_terminator line = true ->
      unFenced blog_type ("```" ++ tag ++ nl ++ line ++ nl ++ more)
      = replace line fence_close (Template "") ++ nl ++ more) /\
  unFenced blog_type fenced_sample = "# Title" ++ nl ++ "Body" ++ nl ++ "```".
Proof.
  split; [exact unFenced_first_lines | vm_compute; reflexivity].
Qed.

Lemma unFenced_keeps_closing_fence_witness :
  unFenced blog_type
    ("```" ++ "markdown" ++ nl ++ "# Title" ++ nl ++ "Body" ++ nl ++ "```")
  = replace "# Title" fence_close (Template "") ++ nl ++ "Body" ++ nl ++ "```".
Proof.
  apply (proj1 unFenced_keeps_closing_fence
           "markdown" "# Title" ("Body" ++ nl ++ "```"));
    reflexivity.
Defined.

(** A later line that begins with a fence is still there after the step,
    which then is not a fixed point of the step. *)
Lemma unFenced_later_fence tag line more :
  alphanumeric tag = true -> no_line_terminator line = true ->
  fence_line_from (Some LF) more = true ->
  has_fence_line
    (unFenced blog_type ("```" ++ tag ++ nl ++ line ++ nl ++ more)) = true.
Proof.
  intros Htag Hline Hmore.
  rewrite (unFenced_first_lines tag line more Htag Hline).
  apply fence_line_elim in Hmore as [a [b [E [Hl Hs]]]]. subst more.
  unfold has_fence_line.
  rewrite <- !append_assoc.
  apply fence_line_intro; [| exact Hs].
  rewrite !prev_after_app. exact Hl.
Qed.

(** C6.  For blog content the step is not idempotent on a fenced block:
    the first pass removes the opening line and leaves the closing fence,
    and a second pass takes that fence for an opening one and removes it.
    This holds of every block that opens with a fence line and has a
    fence at the start of a line after its first content line.  The
    specification's example gives "# Title", "Body" and the closing fence
    after one pass, and "# Title", "Body" and an empty line after
    two. *)
Theorem unFenced_second_pass_differs :
  (forall tag line more,
      alphanumeric tag = true -> no_line_terminator line = true ->
      fence_line_from (Some LF) more = true ->
      unFenced blog_type
        (unFenced blog_type ("```" ++ tag ++ nl ++ line ++ nl ++ more))
      <> unFenced blog_type ("```" ++ tag ++ nl ++ line ++ nl ++ more)) /\
  unFenced blog_type fenced_sample = "# Title" ++ nl ++ "Body" ++ nl ++ "```" /\
  unFenced blog_type (unFenced blog_type fenced_sample)
  = "# Title" ++ nl ++ "Body" ++ nl.
Proof.
  split; [| split; vm_compute; reflexivity].
  intros tag line more Htag Hline Hmore E.
  pose proof (unFenced_later_fence tag line more Htag Hline Hmore) as H.
  apply unFenced_with_fence in H. rewrite E in H. lia.
Qed.

Lemma unFenced_second_pass_differs_witness :
  unFenced blog_type
    (unFenced blog_type
       ("```" ++ "markdown" ++ nl ++ "# Title" ++ nl ++ "Body" ++ nl ++ "```"))
  <> unFenced blog_type
       ("```" ++ "markdown" ++ nl ++ "# Title" ++ nl ++ "Body" ++ nl ++ "```").
Proof.
  apply (proj1 unFenced_second_pass_differs
           "markdown" "# Title" ("Body" ++ nl ++ "```"));
    reflexivity.
Defined.

(* ================================================================= *)
(** ** More on the image markup *)

Lemma Normal_inj (A : Type) (a b : A) : Normal a = Normal b -> a = b.
Proof. intros H. inversion H. reflexivity. Qed.

Lemma processedContent_image u content :
  u <> "" ->
  processedContent (image u) content
  = Normal (replace_from (S (String.length content)) false (image_pattern u)
              (Template "") None content).
Proof.
  intros Hu. unfold processedContent. cbn [imageSrc].
  rewrite (nonempty_true u Hu), RegExp_new_image. reflexivity.
Qed.

Lemma with_markup_length u pieces tail :
  String.length (without_markup pieces tail) + List.length pieces
  <= String.length (with_markup u pieces tail).
Proof.
  induction pieces as [| [kept alt] pieces IH];
    cbn [with_markup without_markup List.length]; [lia |].
  rewrite !length_append. pose proof (directive_length alt u). lia.
Qed.

Lemma exec_image_none u p s :
  no_occurrence u s -> exec false (image_pattern u) p s = None.
Proof.
  intros H.
  destruct (exec false (image_pattern u) p s) as [[[sk mt] y] |] eqn:Ex;
    [| reflexivity].
  apply exec_some in Ex as [Es Hm].
  apply image_match_inv in Hm as [alt [Halt Em]]. cbn [rest] in Em.
  exfalso. apply (H sk alt (rest y) Halt). rewrite <- Em. exact Es.
Qed.

Lemma replace_from_no_occurrence u fuel p s :
  no_occurrence u s ->
  replace_from fuel false (image_pattern u) (Template "") p s = s.
Proof.
  intros H. destruct fuel as [| fuel]; [reflexivity |].
  cbn [replace_from]. rewrite (exec_image_none u p s H). reflexivity.
Qed.

(** X1.  Whatever the image address and the content, building the
    pattern never throws, and the text displayed is never longer than the
    content. *)
Theorem processedContent_total_shorter (imageUrl : image_prop) (content : string) :
  exists s, processedContent imageUrl content = Normal s
            /\ String.length s <= String.length content.
Proof.
  destruct imageUrl as [| | u]; try (exists content; split; [reflexivity | lia]).
  destruct u as [| c u]; [exists content; split; [reflexivity | lia] |].
  rewrite processedContent_image by discriminate.
  destruct (replace_from_image (String c u) (S (String.length content)) content None)
    as [pieces [tail [Ec [Er _]]]]; [lia |].
  eexists. split; [reflexivity |]. rewrite Er, Ec.
  pose proof (with_markup_length (String c u) pieces tail). lia.
Qed.

Lemma unchanged_no_occurrence u content :
  u <> "" ->
  processedContent (image u) content = Normal content ->
  no_occurrence u content.
Proof.
  intros Hu H. rewrite processedContent_image in H by exact Hu.
  apply Normal_inj in H.
  destruct (replace_from_image u (S (String.length content)) content None)
    as [pieces [tail [Ec [Er [_ Ht]]]]]; [lia |].
  pose proof (with_markup_length u pieces tail) as Hl.
  assert (Ew : without_markup pieces tail = content) by congruence.
  rewrite Ew, <- Ec in Hl.
  destruct pieces as [| piece pieces]; [| cbn [List.length] in Hl; lia].
  cbn [with_markup] in Ec. rewrite Ec. exact Ht.
Qed.

(** X2.  With a non-empty image address the content is displayed
    unchanged exactly when it holds no directive for the address (with an
    alternative text that stays on one line). *)
Theorem processedContent_unchanged_iff (u content : string) :
  u <> "" ->
  processedContent (image u) content = Normal content
  <-> no_occurrence u content.
Proof.
  intros Hu. split; [apply unchanged_no_occurrence; exact Hu |].
  intros H. rewrite processedContent_image by exact Hu.
  rewrite (replace_from_no_occurrence u _ None content H). reflexivity.
Qed.

Lemma processedContent_unchanged_iff_witness :
  processedContent (image "u") "no image here" = Normal "no image here"
  <-> no_occurrence "u" "no image here".
Proof.
  apply (processedContent_unchanged_iff "u" "no image here"). discriminate.
Defined.

Lemma exec_skip_prefix m r pre : forall p s,
  (forall a c b, pre = a ++ String c b ->
     matcher m r Some (mkState (prev_after p a) (String c b ++ s)) = None) ->
  exec m r p (pre ++ s)
  = match exec m r (prev_after p pre) s with
    | Some (sk, mt, y) => Some (pre ++ sk, mt, y)
    | None => None
    end.
Proof.
  induction pre as [| c pre IH]; intros p s H.
  - cbn [append prev_after].
    destruct (exec m r p s) as [[[sk mt] y] |]; reflexivity.
  - cbn [append exec prev_after].
    pose proof (H "" c pre eq_refl) as H0. cbn [append prev_after] in H0.
    rewrite H0, IH.
    + destruct (exec m r (prev_after (Some c) pre) s) as [[[sk mt] y] |];
        reflexivity.
    + intros a d b E. apply (H (String c a) d b). simpl. rewrite E. reflexivity.
Qed.

Lemma without_char_at c s a d b :
  without_char c s = true -> s = a ++ String d b -> Ascii.eqb d c = false.
Proof.
  unfold without_char. intros H E.
  rewrite E, list_ascii_app, forallb_app in H.
  apply andb_prop in H as [_ H]. simpl in H.
  apply andb_prop in H as [H _]. apply negb_true_iff in H. exact H.
Qed.

Lemma image_fails_at u p c t :
  Ascii.eqb c "!" = false ->
  matcher false (image_pattern u) Some (mkState p (String c t)) = None.
Proof.
  intros H. unfold image_pattern. cbn [matcher]. unfold char_matcher at 1.
  cbn [rest]. rewrite Ascii.eqb_sym, H. reflexivity.
Qed.

Lemma literal_exact m s : forall p t,
  matcher m (literal s) Some (mkState p (s ++ t))
  = Some (mkState (prev_after p s) t).
Proof.
  induction s as [| c s IH]; intros p t; [reflexivity |].
  rewrite literal_cons. cbn [matcher append]. unfold char_matcher at 1.
  cbn [rest]. rewrite Ascii.eqb_refl. apply IH.
Qed.

Lemma matcher_dot m k x :
  matcher m Dot k x
  = char_matcher (fun c => negb (is_line_terminator c)) k x.
Proof. reflexivity. Qed.

(** A lazy [.*?] stops at the first position where what follows the
    pattern succeeds, as long as no line terminator comes before it. *)
Lemma lazy_dot_star m k z : forall w p t fuel,
  no_line_terminator w = true ->
  (forall a c b, w = a ++ String c b ->
     k (mkState (prev_after p a) (String c b ++ t)) = None) ->
  k (mkState (prev_after p w) t) = Some z ->
  String.length (w ++ t) < fuel ->
  repeat_matcher (matcher m Dot) false k fuel (mkState p (w ++ t)) = Some z.
Proof.
  unfold no_line_terminator.
  induction w as [| c w IH]; intros p t fuel Hw Hno Hk Hlen;
    (destruct fuel as [| fuel]; [lia |]); cbn [repeat_matcher].
  - cbn [append prev_after] in *. rewrite Hk. reflexivity.
  - rewrite (Hno "" c w eq_refl : k (mkState p (String c w ++ t)) = None).
    rewrite matcher_dot. unfold char_matcher. cbn [rest append].
    simpl in Hw. apply andb_prop in Hw as [Hc Hw]. rewrite Hc.
    rewrite same_index_step. cbn [prev_after] in Hk. simpl in Hlen.
    apply IH; [exact Hw | | exact Hk | lia].
    intros a d b E. apply (Hno (String c a) d b). simpl. rewrite E. reflexivity.
Qed.

(** On a directive whose alternative text holds no closing bracket, the
    image pattern matches the directive and nothing more. *)
Lemma image_match_exact u alt p post :
  no_line_terminator alt = true -> without_char "]" alt = true ->
  matcher false (image_pattern u) Some (mkState p (directive alt u ++ post))
  = Some (mkState (prev_after (Some "("%char) (u ++ ")")) post).
Proof.
  intros Hlt Hbr. rewrite directive_shape. unfold image_pattern.
  cbn [matcher]. unfold char_matcher at 1 2. cbn [rest].
  rewrite !Ascii.eqb_refl.
  apply (lazy_dot_star false); [exact Hlt | | | cbn [rest]; lia].
  - intros a c b E. cbn [matcher]. unfold char_matcher at 1. cbn [rest append].
    rewrite Ascii.eqb_sym, (without_char_at "]" alt a c b Hbr E). reflexivity.
  - cbn [matcher]. unfold char_matcher at 1 2. cbn [rest].
    rewrite !Ascii.eqb_refl. apply literal_exact.
Qed.

(** X3.  When the content holds one directive for the image address,
    with no exclamation mark before it, an alternative text without a
    closing bracket or a line terminator, and no further directive after
    it, exactly that directive is taken out. *)
Theorem processedContent_single_directive (u pre alt post : string) :
  u <> "" ->
  without_char "!" pre = true ->
  no_line_terminator alt = true -> without_char "]" alt = true ->
  no_occurrence u post ->
  processedContent (image u) (pre ++ directive alt u ++ post)
  = Normal (pre ++ post).
Proof.
  intros Hu Hpre Hlt Hbr Hpost. rewrite processedContent_image by exact Hu.
  cbn [replace_from]. rewrite exec_skip_prefix.
  - rewrite (exec_at_once _ _ _ _ _ (directive alt u)
               (image_match_exact u alt _ post Hlt Hbr) eq_refl).
    cbn [replacement_text substitute rest append].
    rewrite (replace_from_no_occurrence u _ _ post Hpost).
    unfold directive at 1. cbn [append]. rewrite append_nil_r. reflexivity.
  - intros a c b E. apply image_fails_at.
    exact (without_char_at "!" pre a c b Hpre E).
Qed.

Lemma processedContent_single_directive_witness :
  processedContent (image "u") ("Look " ++ directive "x" "u" ++ " done")
  = Normal ("Look " ++ " done").
Proof.
  apply (processedContent_single_directive "u" "Look " "x" " done");
    try reflexivity; try discriminate.
  apply (unchanged_no_occurrence "u" " done"); [discriminate |].
  vm_compute. reflexivity.
Defined.

(* ================================================================= *)
(** ** Every directive is taken out *)

Lemma append_split x : forall z y w,
  x ++ y = z ++ w ->
  (exists t, x = z ++ t /\ w = t ++ y) \/ (exists t, z = x ++ t /\ y = t ++ w).
Proof.
  induction x as [| c x IH]; intros z y w E.
  - right. exists z. split; [reflexivity | exact E].
  - destruct z as [| d z].
    + left. exists (String c x). split; [reflexivity | symmetry; exact E].
    + simpl in E. injection E as Ec E. subst d.
      destruct (IH z y w E) as [[t [E1 E2]] | [t [E1 E2]]].
      * left. exists t. simpl. rewrite <- E1. auto.
      * right. exists t. simpl. rewrite <- E1. auto.
Qed.

Lemma no_line_terminator_app a b :
  no_line_terminator (a ++ b) = no_line_terminator a && no_line_terminator b.
Proof. unfold no_line_terminator. rewrite list_ascii_app. apply forallb_app. Qed.

Lemma opener_before_line_end s : forall a b,
  last_line_without_opener s = true ->
  s = a ++ String "!" (String "[" b) -> no_line_terminator b = false.
Proof.
  induction s as [| c s IH]; intros a b H E.
  - destruct a; discriminate E.
  - cbn [last_line_without_opener] in H. apply andb_prop in H as [H1 H2].
    destruct a as [| d a].
    + simpl in E. injection E as Ec Es. subst c s.
      apply negb_true_iff in H1.
      unfold startsWith in H1. rewrite !Ascii.eqb_refl in H1.
      cbn [andb] in H1. exact H1.
    + simpl in E. injection E as _ Es. exact (IH a b H2 Es).
Qed.

(** In a text kept no match begins, whatever directive follows it. *)
Lemma image_fails_in_kept u kept after p a c b :
  no_line_terminator u = true ->
  no_occurrence u kept -> last_line_without_opener kept = true ->
  startsWith after "!" = true ->
  kept = a ++ String c b ->
  matcher false (image_pattern u) Some
    (mkState (prev_after p a) (String c b ++ after)) = None.
Proof.
  intros Hu Hno Hopen Hafter Ek.
  destruct (matcher false (image_pattern u) Some
              (mkState (prev_after p a) (String c b ++ after)))
    as [y |] eqn:Em; [exfalso | reflexivity].
  apply matcher_end in Em.
  apply image_match_inv in Em as [alt [Halt Em]]. cbn [rest] in Em.
  apply append_split in Em as [[t [E1 E2]] | [t [E1 E2]]].
  - apply (Hno a alt t Halt). rewrite Ek, E1. reflexivity.
  - assert (Hall : no_line_terminator (alt ++ "](" ++ u ++ ")") = true)
      by (rewrite !no_line_terminator_app, Halt, Hu; reflexivity).
    change (directive alt u)
      with (String "!" (String "[" (alt ++ "](" ++ u ++ ")"))) in E1.
    cbn [append] in E1. injection E1 as Ec E1.
    destruct b as [| d b].
    + cbn [append] in E1. subst t.
      destruct after as [| e after]; [discriminate Hafter |].
      cbn [append] in E2. injection E2 as Ee _. subst e.
      discriminate Hafter.
    + cbn [append] in E1. injection E1 as Ed E1. subst c d.
      pose proof (opener_before_line_end kept a b Hopen Ek) as Hb.
      cbn [append] in Hall.
      rewrite E1, no_line_terminator_app, Hb in Hall. discriminate Hall.
Qed.

Lemma directive_starts alt u t : startsWith (directive alt u ++ t) "!" = true.
Proof. reflexivity. Qed.

Lemma replace_from_well_formed u :
  no_line_terminator u = true ->
  forall pieces tail fuel p,
    Forall (well_formed u) pieces -> no_occurrence u tail ->
    String.length (with_markup u pieces tail) < fuel ->
    replace_from fuel false (image_pattern u) (Template "") p
      (with_markup u pieces tail)
    = without_markup pieces tail.
Proof.
  intros Hu pieces tail.
  induction pieces as [| [kept alt] pieces IH]; intros fuel p Hp Ht Hlen.
  - apply replace_from_no_occurrence. exact Ht.
  - inversion Hp as [| piece l [Hno [Hopen [Hlt Hbr]]] Hp']. subst piece l.
    cbn [fst snd] in Hno, Hopen, Hlt, Hbr.
    cbn [with_markup without_markup] in *.
    destruct fuel as [| fuel]; [lia |]. cbn [replace_from].
    rewrite exec_skip_prefix.
    + rewrite (exec_at_once _ _ _ _ _ (directive alt u)
                 (image_match_exact u alt _ (with_markup u pieces tail) Hlt Hbr)
                 eq_refl).
      cbn [replacement_text substitute rest append].
      rewrite (IH fuel _ Hp' Ht).
      * unfold directive at 1. cbn [append]. rewrite append_nil_r.
        reflexivity.
      * rewrite !length_append in Hlen.
        pose proof (directive_length alt u). lia.
    + intros a c b E.
      apply (image_fails_in_kept u kept _ p a c b Hu Hno Hopen
               (directive_starts alt u _) E).
Qed.

(** C5, as amended.  [escapeRegExp] puts a backslash before each
    metacharacter of the address, so that the pattern built matches the
    address literally.  With a non-empty image address that holds no
    line terminator, every directive [![alt](address)] whose alternative
    text holds no closing bracket and no line terminator is taken out,
    however many there are, and every other character is left as it is,
    in a content whose other text holds no directive for the address and
    no image opener before a directive on the same line. *)
Theorem processedContent_removes_markup :
  (forall u, escapeRegExp u = escaped u) /\
  (forall u, RegExp_new ("!\[.*?\]\(" ++ escapeRegExp u ++ "\)") "g"
             = Normal (mkRegExp (image_pattern u) true false)) /\
  (forall u pieces tail,
     u <> "" -> no_line_terminator u = true ->
     Forall (well_formed u) pieces -> no_occurrence u tail ->
     processedContent (image u) (with_markup u pieces tail)
     = Normal (without_markup pieces tail)) /\
  processedContent (image "http://a.com/img(1).png")
    "Look ![x](http://a.com/img(1).png) done" = Normal "Look  done".
Proof.
  split; [exact escapeRegExp_escaped |]. split; [exact RegExp_new_image |].
  split; [| vm_compute; reflexivity].
  intros u pieces tail Hu Hlt Hp Ht.
  rewrite processedContent_image by exact Hu.
  rewrite (replace_from_well_formed u Hlt pieces tail _ None Hp Ht);
    [reflexivity | lia].
Qed.

Lemma processedContent_removes_markup_witness :
  processedContent (image "u")
    ("![logo](l.png)" ++ nl ++ "Look ![x](u) and ![y](u) done")
  = Normal ("![logo](l.png)" ++ nl ++ "Look  and  done").
Proof.
  apply (proj1 (proj2 (proj2 processedContent_removes_markup))
           "u" [("![logo](l.png)" ++ nl ++ "Look ", "x"); (" and ", "y")]
           " done").
  - discriminate.
  - reflexivity.
  - repeat constructor; cbn [fst snd];
      apply unchanged_no_occurrence; (discriminate || (vm_compute; reflexivity)).
  - apply unchanged_no_occurrence; [discriminate | vm_compute; reflexivity].
Defined.

(** C5, as the specification words it, fails on a text with two
    directives for the address: both are taken out, so the result is not
    the text with exactly one directive deleted. *)
Lemma processedContent_removes_every_occurrence :
  processedContent (image "u") "![a](u) ![b](u)" = Normal " " /\
  ~ (exists pre alt post,
       "![a](u) ![b](u)" = pre ++ directive alt "u" ++ post /\
       processedContent (image "u") "![a](u) ![b](u)" = Normal (pre ++ post)).
Proof.
  assert (Hrun : processedContent (image "u") "![a](u) ![b](u)" = Normal " ")
    by (vm_compute; reflexivity).
  split; [exact Hrun |].
  intros [pre [alt [post [E1 E2]]]]. rewrite Hrun in E2.
  injection E2 as E2. destruct pre as [| c pre]; simpl in E1, E2.
  - subst post. unfold directive in E1. simpl in E1.
    injection E1 as E1.
    repeat (destruct alt as [| ? alt]; simpl in E1;
            [discriminate E1 | injection E1 as _ E1]).
    destruct alt; discriminate E1.
  - injection E1 as Ec _. injection E2 as Ec' _. congruence.
Qed.

(* ================================================================= *)
(** ** More on [escapeRegExp] *)

Lemma escaped_length u :
  String.length (escaped u) = String.length u + count_metacharacters u.
Proof.
  induction u as [| c u IH]; [reflexivity |].
  cbn [escaped count_metacharacters].
  destruct (is_metacharacter c); cbn [String.length]; rewrite IH; lia.
Qed.

Lemma plain_count u : plain u = true <-> count_metacharacters u = 0.
Proof.
  unfold plain. induction u as [| c u IH]; simpl; [tauto |].
  destruct (is_metacharacter c); simpl.
  - split; [discriminate | lia].
  - exact IH.
Qed.

Lemma escaped_plain u : plain u = true -> escaped u = u.
Proof.
  unfold plain. induction u as [| c u IH]; simpl; [reflexivity |].
  intros H. apply andb_prop in H as [Hc Hu]. apply negb_true_iff in Hc.
  rewrite Hc, (IH Hu). reflexivity.
Qed.

(** X4.  [escapeRegExp] adds one character for each metacharacter of the
    text, and returns the text as it is exactly when the text holds no
    metacharacter; so escaping twice is not escaping once as soon as
    there is something to escape. *)
Theorem escapeRegExp_length_fixed :
  (forall u, String.length (escapeRegExp u)
             = String.length u + count_metacharacters u) /\
  (forall u, escapeRegExp u = u <-> plain u = true) /\
  (forall u, escapeRegExp (escapeRegExp u) = escapeRegExp u <-> plain u = true).
Proof.
  assert (Hfix : forall u, escapeRegExp u = u <-> plain u = true).
  { intros u. rewrite escapeRegExp_escaped. split.
    - intros H. apply plain_count.
      pose proof (escaped_length u) as Hl. rewrite H in Hl. lia.
    - apply escaped_plain. }
  split; [| split].
  - intros u. rewrite escapeRegExp_escaped. apply escaped_length.
  - exact Hfix.
  - intros u. split.
    + intros H. apply Hfix in H. rewrite escapeRegExp_escaped in H.
      apply plain_count in H. apply plain_count.
      destruct (count_metacharacters u) as [| n] eqn:E; [reflexivity |].
      exfalso. clear Hfix. revert n E H.
      induction u as [| c u IH]; intros n E H; [discriminate |].
      cbn [escaped count_metacharacters] in *.
      destruct (is_metacharacter c) eqn:Hc.
      * cbn [count_metacharacters] in H.
        replace (is_metacharacter backslash) with true in H by reflexivity.
        lia.
      * cbn [count_metacharacters] in H. rewrite Hc in H.
        simpl in E, H. exact (IH n E H).
    + intros H. apply Hfix in H. rewrite H. exact H.
Qed.

Lemma startsWith_cons a s b p :
  startsWith (String a s) (String b p) = Ascii.eqb a b && startsWith s p.
Proof. reflexivity. Qed.

Lemma literal_match m u : forall p s,
  matcher m (literal u) Some (mkState p s)
  = if startsWith s u
    then Some (mkState (prev_after p u) (drop (String.length u) s))
    else None.
Proof.
  induction u as [| c u IH]; intros p s.
  - destruct s; reflexivity.
  - rewrite literal_cons. cbn [matcher]. unfold char_matcher at 1. cbn [rest].
    destruct s as [| d s]; [reflexivity |].
    rewrite startsWith_cons, Ascii.eqb_sym.
    destruct (Ascii.eqb_spec d c) as [-> | Hne]; [| reflexivity].
    cbn [andb prev_after String.length drop]. apply IH.
Qed.

(** X5.  The text returned by [escapeRegExp] is always accepted by the
    [RegExp] constructor, and the pattern it gives matches at a position
    exactly when the input there begins with the original text, of which
    it reads every character and no more. *)
Theorem escapeRegExp_literal :
  (forall u, RegExp_new (escapeRegExp u) ""
             = Normal (mkRegExp (literal u) false false)) /\
  (forall u p s,
      matcher false (literal u) Some (mkState p s)
      = if startsWith s u
        then Some (mkState (prev_after p u) (drop (String.length u) s))
        else None).
Proof.
  split; [| intros u p s; apply literal_match].
  intros u. rewrite escapeRegExp_escaped. unfold RegExp_new.
  rewrite <- (append_nil_r (escaped u)), tokens_escaped.
  cbn [tokens option_map]. rewrite app_nil_r. unfold literal at 1.
  rewrite terms_chars. reflexivity.
Qed.

(* ================================================================= *)
(** ** More on the download *)

Lemma no_slash_app a b : no_slash (a ++ b) = no_slash a && no_slash b.
Proof. unfold no_slash. rewrite list_ascii_app. apply forallb_app. Qed.

Lemma split_pieces s : Forall (fun piece => no_slash piece = true) (split "/" s).
Proof.
  induction s as [| c s IH]; simpl.
  - repeat constructor.
  - destruct (Ascii.eqb c "/") eqn:Hc.
    + constructor; [reflexivity | exact IH].
    + destruct (split "/" s) as [| piece pieces].
      * repeat constructor. unfold no_slash. simpl. rewrite Hc. reflexivity.
      * inversion IH; subst. constructor; [| assumption].
        unfold no_slash in *. simpl. rewrite Hc. assumption.
Qed.

Lemma pop_in (A : Type) (l : list A) (a : A) : pop l = Some a -> In a l.
Proof.
  induction l as [| b l IH]; [discriminate |].
  simpl. destruct l as [| b' l].
  - intros H. inversion H. left. reflexivity.
  - intros H. right. apply IH. exact H.
Qed.

Lemma fileNameFromUrl_segment urlPath name :
  fileNameFromUrl urlPath = Some name ->
  nonempty name = true /\ no_slash name = true.
Proof.
  unfold fileNameFromUrl. intros H. apply pop_in in H.
  apply filter_In in H as [Hin Hne]. split; [exact Hne |].
  pose proof (split_pieces urlPath) as Hp. rewrite Forall_forall in Hp.
  apply Hp, Hin.
Qed.

Lemma extensionFromType_no_slash blobType :
  nonempty (extensionFromType blobType) = true
  /\ no_slash (extensionFromType blobType) = true.
Proof.
  unfold extensionFromType.
  destruct (nth_error (split "/" blobType) 1) as [sub |] eqn:E;
    [| split; reflexivity].
  destruct (nonempty sub) eqn:Hne; [| split; reflexivity].
  split; [exact Hne |].
  pose proof (split_pieces blobType) as Hp. rewrite Forall_forall in Hp.
  apply Hp. eapply nth_error_In. exact E.
Qed.

Lemma download_well_formed urlPath blobType :
  download urlPath blobType <> "" /\ no_slash (download urlPath blobType) = true.
Proof.
  unfold download.
  destruct (fileNameFromUrl urlPath) as [name |] eqn:E.
  - apply fileNameFromUrl_segment in E as [Hne Hns]. rewrite Hne.
    split; [destruct name; [discriminate | discriminate] | exact Hns].
  - split; [discriminate |].
    rewrite no_slash_app.
    rewrite (proj2 (extensionFromType_no_slash blobType)). reflexivity.
Qed.

(** X6.  Whatever the path of the image address and the media type of
    the blob, the name given to the download is never empty and never
    holds a slash. *)
Theorem download_never_empty_no_slash (urlPath blobType : string) :
  download urlPath blobType <> "" /\ no_slash (download urlPath blobType) = true.
Proof. apply download_well_formed. Qed.

(** X7.  A slash at the end of the path does not change the name of the
    download, and neither does a doubled slash before the last segment:
    empty segments are ignored. *)
Theorem download_ignores_empty_segments :
  (forall urlPath blobType,
      download (urlPath ++ "/") blobType = download urlPath blobType) /\
  (forall a b blobType,
      download (a ++ "//" ++ b) blobType = download (a ++ "/" ++ b) blobType).
Proof.
  split.
  - intros urlPath blobType. unfold download, fileNameFromUrl.
    change (urlPath ++ "/") with (urlPath ++ String "/" "").
    rewrite split_app, filter_app. cbn [split filter nonempty].
    rewrite app_nil_r. reflexivity.
  - intros a b blobType. unfold download, fileNameFromUrl.
    change (a ++ "//" ++ b) with (a ++ String "/" (String "/" b)).
    change (a ++ "/" ++ b) with (a ++ String "/" b).
    rewrite !split_app, !filter_app.
    change (String "/" b) with ("" ++ String "/" b).
    rewrite split_app, filter_app. reflexivity.
Qed.

(** X8.  A click on the download button without an image address, or
    with an empty one, does nothing.  With an address it shows exactly
    one notification: "Image downloaded" together with a file whose name
    is not empty and holds no slash, or "Failed to download image" and no
    file when the fetch, the reading of the blob or the parsing of the
    address throws.  The status of the response is never looked at: a
    response that is not ok is saved like any other. *)
Theorem handleDownloadImage_effects :
  (forall fetch pathname,
      handleDownloadImage fetch pathname image_undefined = mkEffects None []
      /\ handleDownloadImage fetch pathname image_null = mkEffects None []
      /\ handleDownloadImage fetch pathname (image "") = mkEffects None []) /\
  (forall fetch pathname src,
      src <> "" ->
      (exists name,
          handleDownloadImage fetch pathname (image src)
          = mkEffects (Some name) [toast_success "Image downloaded"]
          /\ name <> "" /\ no_slash name = true)
      \/ handleDownloadImage fetch pathname (image src)
         = mkEffects None [toast_error "Failed to download image"]) /\
  (forall fetch pathname src status blobType urlPath,
      src <> "" ->
      fetch src = Normal (mkImageResponse status (Normal blobType)) ->
      pathname src = Normal urlPath ->
      handleDownloadImage fetch pathname (image src)
      = mkEffects (Some (download urlPath blobType))
                  [toast_success "Image downloaded"]).
Proof.
  split; [intros; repeat split; reflexivity |]. split.
  - intros fetch pathname src Hsrc. unfold handleDownloadImage. cbn [imageSrc].
    rewrite (nonempty_true src Hsrc).
    destruct (fetch src) as [[status [blobType | e]] | e]; cbn [bind blob_type];
      try (right; reflexivity).
    destruct (pathname src) as [urlPath | e]; cbn [bind];
      [| right; reflexivity].
    left. exists (download urlPath blobType).
    split; [reflexivity | apply download_well_formed].
  - intros fetch pathname src status blobType urlPath Hsrc Hf Hp.
    unfold handleDownloadImage. cbn [imageSrc].
    rewrite (nonempty_true src Hsrc), Hf. cbn [bind blob_type]. rewrite Hp.
    reflexivity.
Qed.

Lemma handleDownloadImage_effects_witness :
  handleDownloadImage
    (fun _ => Normal (mkImageResponse false (Normal "image/webp")))
    (fun _ => Normal "/gen/abc.jpg") (image "https://x.com/gen/abc.jpg")
  = mkEffects (Some (download "/gen/abc.jpg" "image/webp"))
              [toast_success "Image downloaded"].
Proof.
  apply (proj2 (proj2 handleDownloadImage_effects)
           (fun _ => Normal (mkImageResponse false (Normal "image/webp")))
           (fun _ => Normal "/gen/abc.jpg") "https://x.com/gen/abc.jpg"
           false "image/webp" "/gen/abc.jpg");
    [discriminate | reflexivity | reflexivity].
Defined.

(* ================================================================= *)
(** ** More on the fences *)

Lemma isBlog_spec type : isBlog type = true <-> type = blog_type.
Proof.
  unfold isBlog, blog_type, Str.
  destruct type as [| [| b | n | s | items | props]];
    try (split; discriminate).
  rewrite String.eqb_eq. split; [intros ->; reflexivity |].
  intros H. inversion H. reflexivity.
Qed.

Lemma unFenced_other type s : type <> blog_type -> unFenced type s = s.
Proof.
  intros H. unfold unFenced. destruct (isBlog type) eqn:E; [| reflexivity].
  apply isBlog_spec in E. contradiction.
Qed.

(** X9.  Whatever the content type, the step changes a text only when
    the type is exactly "blog" and some line of the text begins with
    three backticks, and it never makes a text longer. *)
Theorem unFenced_changes_only_blog_fences (type : value) (s : string) :
  (unFenced type s = s <-> type <> blog_type \/ has_fence_line s = false) /\
  String.length (unFenced type s) <= String.length s.
Proof.
  destruct (isBlog type) eqn:E.
  - apply isBlog_spec in E. subst type. split.
    + rewrite unFenced_fixed_iff. split; [auto |].
      intros [H | H]; [contradiction | exact H].
    + destruct (has_fence_line s) eqn:Hf.
      * apply unFenced_with_fence in Hf. lia.
      * rewrite (unFenced_without_fence s Hf). lia.
  - assert (Hne : type <> blog_type).
    { intros H. apply isBlog_spec in H. congruence. }
    rewrite (unFenced_other type s Hne). split; [tauto | lia].
Qed.

(** Before a fence, all that matters of the context is that a line
    begins. *)
Lemma fence_block_context p t :
  line_start p = true ->
  matcher true (pattern fence_block) Some (mkState p ("```" ++ t))
  = matcher true (pattern fence_block) Some (mkState None ("```" ++ t)).
Proof.
  intros Hl. cbv [fence_block pattern seq fold_right].
  cbn [matcher]. rewrite !line_start_spec. cbn [prev]. rewrite Hl.
  reflexivity.
Qed.

Lemma prev_after_last a c b p :
  prev_after p (a ++ String c b) = prev_after (Some c) b.
Proof. rewrite prev_after_app. reflexivity. Qed.

(** No fence begins inside a text without a fence line that ends where
    a line begins. *)
Lemma no_fence_inside pre s a c b :
  has_fence_line pre = false -> line_start (prev_after None pre) = true ->
  pre = a ++ String c b ->
  matcher true (pattern fence_block) Some
    (mkState (prev_after None a) (String c b ++ s)) = None.
Proof.
  intros Hf Hend E.
  destruct (matcher true (pattern fence_block) Some
              (mkState (prev_after None a) (String c b ++ s))) as [y |] eqn:Hm;
    [| reflexivity].
  exfalso. apply matcher_end in Hm.
  cbv [fence_block pattern seq fold_right] in Hm.
  apply fence_prefix_inv in Hm as [Hl [t [Et _]]].
  rewrite line_start_spec in Hl. cbn [prev rest] in Hl, Et.
  assert (Hb : startsWith (String c b) "```" = false).
  { destruct (startsWith (String c b) "```") eqn:Hs; [| reflexivity].
    unfold has_fence_line in Hf. rewrite E in Hf.
    rewrite (fence_line_intro a None (String c b) Hl Hs) in Hf. discriminate. }
  destruct b as [| d [| e b]]; simpl in Et; inversion Et; subst.
  - rewrite prev_after_last in Hend. discriminate.
  - rewrite prev_after_last in Hend. discriminate.
  - discriminate.
Qed.

Lemma unFenced_after_prefix pre s :
  has_fence_line pre = false -> line_start (prev_after None pre) = true ->
  startsWith s "```" = true ->
  unFenced blog_type (pre ++ s) = pre ++ unFenced blog_type s.
Proof.
  intros Hf Hend Hs. apply startsWith_fence in Hs as [t ->].
  rewrite !unFenced_blog. unfold replace_first.
  destruct (fence_block_matches None t eq_refl) as [y0 Hy0].
  destruct (matcher true (pattern fence_block) Some (mkState None ("```" ++ t)))
    as [y |] eqn:Hm; [| exfalso; exact (matcher_finds _ _ _ _ Hy0 Hm)].
  destruct (matches_suffix _ _ _ _ (matcher_end _ _ _ _ Hm)) as [w [Ew _]].
  cbn [rest] in Ew.
  rewrite (exec_at_once true _ None _ y w Hm Ew).
  rewrite exec_skip_prefix.
  - rewrite (exec_at_once true _ (prev_after None pre) _ y w); [| | exact Ew].
    + rewrite append_nil_r. reflexivity.
    + rewrite (fence_block_context _ t Hend). exact Hm.
  - intros a c b E. exact (no_fence_inside pre _ a c b Hf Hend E).
Qed.

(** X10.  The text before the first line that begins with three
    backticks is kept as it is: a fence that opens further down is
    treated like one at the start of the text. *)
Theorem unFenced_keeps_text_before_fence (pre s : string) :
  has_fence_line pre = false -> line_start (prev_after None pre) = true ->
  startsWith s "```" = true ->
  unFenced blog_type (pre ++ s) = pre ++ unFenced blog_type s.
Proof. apply unFenced_after_prefix. Qed.

Lemma unFenced_keeps_text_before_fence_witness :
  unFenced blog_type (("Intro" ++ nl) ++ "```js" ++ nl ++ "code")
  = ("Intro" ++ nl) ++ unFenced blog_type ("```js" ++ nl ++ "code").
Proof.
  apply (unFenced_keeps_text_before_fence ("Intro" ++ nl) ("```js" ++ nl ++ "code"));
    reflexivity.
Defined.

(* ================================================================= *)
(** ** The normaliser followed by the fence step *)

Lemma stringify_array_cons x items :
  exists more, stringify (JArray (x :: items)) 2 = "[" ++ nl ++ more.
Proof. eexists. unfold stringify. cbn [serialize map]. reflexivity. Qed.

Lemma stringify_object_cons kv props :
  exists more, stringify (JObject (kv :: props)) 2 = "{" ++ nl ++ more.
Proof. eexists. unfold stringify. cbn [serialize map]. reflexivity. Qed.

Lemma unFenced_json_line line more :
  no_line_terminator line = true ->
  replace line fence_close (Template "") = line ->
  unFenced blog_type ("```json" ++ nl ++ (line ++ nl ++ more) ++ nl ++ "```")
  = (line ++ nl ++ more) ++ nl ++ "```".
Proof.
  intros Hl Hr.
  replace ("```json" ++ nl ++ (line ++ nl ++ more) ++ nl ++ "```")
    with ("```" ++ "json" ++ nl ++ line ++ nl ++ (more ++ nl ++ "```")).
  - rewrite (unFenced_first_lines "json" line _ eq_refl Hl), Hr.
    rewrite !append_assoc. reflexivity.
  - cbn [append]. rewrite !append_assoc. reflexivity.
Qed.

Lemma unFenced_fenced_json j :
  (exists items, j = JArray items) \/ (exists props, j = JObject props) ->
  unFenced blog_type (fenced_json j) = stringify j 2 ++ nl ++ "```".
Proof.
  unfold fenced_json.
  intros [[[| x items] ->] | [[| kv props] ->]].
  - vm_compute. reflexivity.
  - destruct (stringify_array_cons x items) as [more ->].
    apply (unFenced_json_line "[" more); reflexivity.
  - vm_compute. reflexivity.
  - destruct (stringify_object_cons kv props) as [more ->].
    apply (unFenced_json_line "{" more); reflexivity.
Qed.

(** X11.  For blog content that is an array, or an object whose [raw]
    field is absent, not a string or empty, the text kept after the two
    steps is the pretty-printed JSON followed by a closing fence on a line
    of its own: the opening fence that the normaliser has just written is
    taken out again and the closing one is not. *)
Theorem blog_structured_content_keeps_closing_fence :
  (forall items display,
      displayContent (Json (JArray items)) = Normal display ->
      unFenced blog_type display = stringify (JArray items) 2 ++ nl ++ "```") /\
  (forall props display,
      (forall raw, lookup "raw" props = Str raw -> raw = "") ->
      displayContent (Json (JObject props)) = Normal display ->
      unFenced blog_type display = stringify (JObject props) 2 ++ nl ++ "```").
Proof.
  split.
  - intros items display H. apply Normal_inj in H. subst display.
    apply (unFenced_fenced_json (JArray items)). left. eauto.
  - intros props display Hraw H. rewrite displayContent_object in H.
    assert (E : display = fenced_json (JObject props)).
    { destruct (lookup "raw" props) as [|[| b | n | raw | items | ps]];
        try (apply Normal_inj in H; symmetry; exact H).
      rewrite (Hraw raw eq_refl) in H. apply Normal_inj in H.
      symmetry. exact H. }
    rewrite E. apply unFenced_fenced_json. right. eauto.
Qed.

Lemma blog_structured_content_keeps_closing_fence_witness :
  unFenced blog_type
    ("```json" ++ nl ++ stringify (JArray [JNumber (integer 1)]) 2 ++ nl ++ "```")
  = stringify (JArray [JNumber (integer 1)]) 2 ++ nl ++ "```".
Proof.
  apply (proj1 blog_structured_content_keeps_closing_fence
           [JNumber (integer 1)]).
  reflexivity.
Defined.

(* ================================================================= *)
(** ** More on the submission *)

Lemma surfaced_not_empty e : surfaced e <> "".
Proof.
  unfold surfaced. destruct (message e) as [| c m]; simpl; discriminate.
Qed.

Lemma onSubmit_normal fetch data v r :
  attempt fetch data = Normal r ->
  onSubmit fetch data v
  = mkView false (Some r)
      (toasts v ++ [toast_success "Content generated successfully!"]).
Proof. intros H. unfold onSubmit, settle. rewrite H. reflexivity. Qed.

(** X12.  Every submission ends with the form no longer loading and
    with exactly one more notification: the success notification together
    with a result, or an error notification, whose text is never empty,
    together with no result. *)
Theorem onSubmit_one_notification fetch data v :
  exists t,
    toasts (onSubmit fetch data v) = (toasts v ++ [t])%list /\
    loading (onSubmit fetch data v) = false /\
    ((exists r, result (onSubmit fetch data v) = Some r
                /\ t = toast_success "Content generated successfully!")
     \/ (result (onSubmit fetch data v) = None
         /\ exists text, t = toast_error text /\ text <> "")).
Proof.
  destruct (attempt fetch data) as [r | e] eqn:E.
  - rewrite (onSubmit_normal fetch data v r E). eexists.
    split; [reflexivity |]. split; [reflexivity |]. left.
    exists r. split; reflexivity.
  - rewrite (onSubmit_throw fetch data v e E). eexists.
    split; [reflexivity |]. split; [reflexivity |]. right.
    split; [reflexivity |]. eexists. split; [reflexivity |].
    apply surfaced_not_empty.
Qed.

Lemma refused_conversion_throws fetch data v response body detail e :
  fetch (submitted data) = Normal response -> ok response = false ->
  json response = Normal body ->
  get (Json body) "detail" = Normal detail ->
  ToString (or detail (Str "Failed to generate content.")) = Throw e ->
  toasts (onSubmit fetch data v)
  = (toasts v ++ [toast_error (surfaced e)])%list.
Proof.
  intros Hf Hok Hb Hd Ht.
  pose proof (attempt_refused fetch data response Hf Hok) as Ha.
  rewrite Hb in Ha. cbn [bind] in Ha. rewrite Hd in Ha. cbn [bind] in Ha.
  rewrite Ht in Ha. cbn [bind] in Ha.
  rewrite (onSubmit_throw _ _ v _ Ha). reflexivity.
Qed.

(** X13.  After a response that is not ok, a truthy [detail] that is not
    a string is shown through its conversion to a string: an object
    without an own [toString] property as "[object Object]"; a [detail]
    whose conversion is empty, such as an empty array, as "An unexpected
    error occurred.".  When the conversion throws, as for an object with
    an own [toString] property, the message of that error is shown. *)
Theorem error_detail_converted :
  (forall fetch data v response body detail text,
      fetch (submitted data) = Normal response -> ok response = false ->
      json response = Normal body ->
      get (Json body) "detail" = Normal detail -> ToBoolean detail = true ->
      ToString detail = Normal text ->
      toasts (onSubmit fetch data v)
      = (toasts v ++ [toast_error
           (if nonempty text then text
            else "An unexpected error occurred.")])%list) /\
  (forall fetch data v response body detail e,
      fetch (submitted data) = Normal response -> ok response = false ->
      json response = Normal body ->
      get (Json body) "detail" = Normal detail -> ToBoolean detail = true ->
      ToString detail = Throw e ->
      toasts (onSubmit fetch data v)
      = (toasts v ++ [toast_error (surfaced e)])%list) /\
  (forall fetch data v response body props,
      fetch (submitted data) = Normal response -> ok response = false ->
      json response = Normal body ->
      get (Json body) "detail" = Normal (Json (JObject props)) ->
      toasts (onSubmit fetch data v)
      = (toasts v ++ [toast_error
           (if has_own "toString" props
            then surfaced ConversionError
            else "[object Object]")])%list) /\
  (forall fetch data v response body,
      fetch (submitted data) = Normal response -> ok response = false ->
      json response = Normal body ->
      get (Json body) "detail" = Normal (Json (JArray [])) ->
      toasts (onSubmit fetch data v)
      = (toasts v ++ [toast_error "An unexpected error occurred."])%list).
Proof.
  split; [| split; [| split]].
  - intros fetch data v response body detail text Hf Hok Hb Hd Ht Hs.
    rewrite (refused_text fetch data v response body detail text Hf Hok Hb Hd);
      [reflexivity |].
    unfold or. rewrite Ht. exact Hs.
  - intros fetch data v response body detail e Hf Hok Hb Hd Ht Hs.
    apply (refused_conversion_throws fetch data v response body detail e
             Hf Hok Hb Hd).
    unfold or. rewrite Ht. exact Hs.
  - intros fetch data v response body props Hf Hok Hb Hd.
    destruct (has_own "toString" props) eqn:Hp.
    + apply (refused_conversion_throws fetch data v response body _ _
               Hf Hok Hb Hd).
      unfold or. cbn [ToBoolean ToString ToString_json]. rewrite Hp.
      reflexivity.
    + rewrite (refused_text fetch data v response body _ "[object Object]"
                 Hf Hok Hb Hd); [reflexivity |].
      unfold or. cbn [ToBoolean ToString ToString_json]. rewrite Hp.
      reflexivity.
  - intros fetch data v response body Hf Hok Hb Hd.
    rewrite (refused_text fetch data v response body _ "" Hf Hok Hb Hd);
      reflexivity.
Qed.

Lemma error_detail_converted_witness :
  toasts (onSubmit
            (refusing (JObject [("detail", JArray [JObject [("msg", JString "field required")]])]))
            sample_form idle)
  = [toast_error "[object Object]"]
  /\ toasts (onSubmit
               (refusing (JObject [("detail", JObject [("toString", JNumber (integer 1))])]))
               sample_form idle)
     = [toast_error "Cannot convert object to primitive value"].
Proof.
  split.
  - apply (proj1 error_detail_converted
             (refusing (JObject [("detail", JArray [JObject [("msg", JString "field required")]])]))
             sample_form idle _ _ _ "[object Object]"
             eq_refl eq_refl eq_refl eq_refl);
      reflexivity.
  - apply (proj1 (proj2 error_detail_converted)
             (refusing (JObject [("detail", JObject [("toString", JNumber (integer 1))])]))
             sample_form idle _ _ _ ConversionError
             eq_refl eq_refl eq_refl eq_refl);
      reflexivity.
Defined.

Lemma displayContent_normal content :
  exists s, displayContent content = Normal s.
Proof.
  destruct content as [|[| [|] | n | s | items | props]];
    try (eexists; reflexivity).
  rewrite displayContent_object.
  destruct (lookup "raw" props) as [|[| b | n | raw | items | ps]];
    try (eexists; reflexivity).
  destruct (nonempty raw); eexists; reflexivity.
Qed.

Lemma get_not_null j key :
  j <> JNull -> exists v, get (Json j) key = Normal v.
Proof.
  intros H. destruct j; try (eexists; reflexivity). contradiction.
Qed.

Lemma unFenced_plain type s : has_fence_line s = false -> unFenced type s = s.
Proof.
  intros H. unfold unFenced. destruct (isBlog type); [| reflexivity].
  apply (unFenced_without_fence s H).
Qed.

Lemma attempt_answered fetch data response :
  fetch (submitted data) = Normal response -> ok response = true ->
  attempt fetch data =
  bind (json response) (fun resultData =>
  bind (get (Json resultData) "content") (fun content =>
  bind (displayContent content) (fun display =>
  bind (get (Json resultData) "content_type") (fun type =>
  bind (get (Json resultData) "url") (fun url =>
  bind (get (Json resultData) "image_url") (fun image =>
  Normal (mkGeneratedContent url type image (unFenced type display)))))))).
Proof.
  intros Hf Hok. unfold attempt. rewrite Hf. cbn [bind]. rewrite Hok.
  reflexivity.
Qed.

(** X14.  A response that is ok is stored whenever its body is JSON
    other than [null], whatever its shape; a body that is [null] is
    reported as an error and nothing is stored.  When the body has no
    [content] field the text stored is "undefined", and the submission
    still counts as a success. *)
Theorem ok_response_stored :
  (forall fetch data v response body,
      fetch (submitted data) = Normal response -> ok response = true ->
      json response = Normal body -> body <> JNull ->
      exists r,
        onSubmit fetch data v
        = mkView false (Some r)
            (toasts v ++ [toast_success "Content generated successfully!"])) /\
  (forall fetch data v response,
      fetch (submitted data) = Normal response -> ok response = true ->
      json response = Normal JNull ->
      result (onSubmit fetch data v) = None
      /\ exists text,
           toasts (onSubmit fetch data v) = (toasts v ++ [toast_error text])%list) /\
  (forall fetch data v response body,
      fetch (submitted data) = Normal response -> ok response = true ->
      json response = Normal body -> body <> JNull ->
      get (Json body) "content" = Normal Undefined ->
      exists r, result (onSubmit fetch data v) = Some r
                /\ content r = "undefined").
Proof.
  split; [| split].
  - intros fetch data v response body Hf Hok Hb Hn.
    pose proof (attempt_answered fetch data response Hf Hok) as Ha.
    rewrite Hb in Ha. cbn [bind] in Ha.
    destruct (get_not_null body "content" Hn) as [c Hc].
    destruct (get_not_null body "content_type" Hn) as [t Ht].
    destruct (get_not_null body "url" Hn) as [u Hu].
    destruct (get_not_null body "image_url" Hn) as [i Hi].
    destruct (displayContent_normal c) as [d Hd].
    rewrite Hc in Ha. cbn [bind] in Ha. rewrite Hd in Ha. cbn [bind] in Ha.
    rewrite Ht in Ha. cbn [bind] in Ha. rewrite Hu in Ha. cbn [bind] in Ha.
    rewrite Hi in Ha. cbn [bind] in Ha.
    eexists. apply (onSubmit_normal fetch data v _ Ha).
  - intros fetch data v response Hf Hok Hb.
    pose proof (attempt_answered fetch data response Hf Hok) as Ha.
    rewrite Hb in Ha. cbn [bind get] in Ha.
    rewrite (onSubmit_throw _ _ v _ Ha). split; [reflexivity |].
    eexists. reflexivity.
  - intros fetch data v response body Hf Hok Hb Hn Hc.
    pose proof (attempt_answered fetch data response Hf Hok) as Ha.
    rewrite Hb in Ha. cbn [bind] in Ha.
    destruct (get_not_null body "content_type" Hn) as [t Ht].
    destruct (get_not_null body "url" Hn) as [u Hu].
    destruct (get_not_null body "image_url" Hn) as [i Hi].
    rewrite Hc in Ha. cbn [bind] in Ha.
    replace (displayContent Undefined) with (Normal "undefined") in Ha
      by reflexivity.
    cbn [bind] in Ha.
    rewrite Ht in Ha. cbn [bind] in Ha. rewrite Hu in Ha. cbn [bind] in Ha.
    rewrite Hi in Ha. cbn [bind] in Ha.
    rewrite (onSubmit_normal fetch data v _ Ha). eexists.
    split; [reflexivity |]. cbn [content].
    apply unFenced_plain. reflexivity.
Qed.

Lemma ok_response_stored_witness :
  exists r,
    result (onSubmit (answering (JObject [("content_type", JString "blog")]))
              sample_form idle) = Some r
    /\ content r = "undefined".
Proof.
  apply (proj2 (proj2 ok_response_stored)
           (answering (JObject [("content_type", JString "blog")]))
           sample_form idle _ _ eq_refl eq_refl eq_refl);
    [discriminate | reflexivity].
Defined.

(** X15.  A response that is ok, whose [content] is a string, or an
    object with a non-empty string [raw], is stored with that text as it
    is, next to the [url], [content_type] and [image_url] of the body,
    whenever the content type is not "blog" or no line of the text begins
    with three backticks. *)
Theorem plain_content_stored_verbatim :
  (forall fetch data v response props s,
      fetch (submitted data) = Normal response -> ok response = true ->
      json response = Normal (JObject props) ->
      lookup "content" props = Str s ->
      lookup "content_type" props <> blog_type \/ has_fence_line s = false ->
      result (onSubmit fetch data v)
      = Some (mkGeneratedContent (lookup "url" props)
                (lookup "content_type" props) (lookup "image_url" props) s)) /\
  (forall fetch data v response props inner s,
      fetch (submitted data) = Normal response -> ok response = true ->
      json response = Normal (JObject props) ->
      lookup "content" props = Json (JObject inner) ->
      lookup "raw" inner = Str s -> s <> "" ->
      lookup "content_type" props <> blog_type \/ has_fence_line s = false ->
      result (onSubmit fetch data v)
      = Some (mkGeneratedContent (lookup "url" props)
                (lookup "content_type" props) (lookup "image_url" props) s)).
Proof.
  assert (Hkeep : forall type s,
            type <> blog_type \/ has_fence_line s = false ->
            unFenced type s = s).
  { intros type s [H | H]; [apply unFenced_other | apply unFenced_plain];
      exact H. }
  split.
  - intros fetch data v response props s Hf Hok Hb Hc Hs.
    pose proof (attempt_answered fetch data response Hf Hok) as Ha.
    rewrite Hb in Ha. cbn [bind get] in Ha. rewrite Hc in Ha.
    replace (displayContent (Str s)) with (Normal s) in Ha by reflexivity.
    cbn [bind] in Ha. rewrite (Hkeep _ s Hs) in Ha.
    rewrite (onSubmit_normal fetch data v _ Ha). reflexivity.
  - intros fetch data v response props inner s Hf Hok Hb Hc Hr Hne Hs.
    pose proof (attempt_answered fetch data response Hf Hok) as Ha.
    rewrite Hb in Ha. cbn [bind get] in Ha. rewrite Hc in Ha.
    rewrite displayContent_object, Hr in Ha. unfold Str in Ha.
    rewrite (nonempty_true s Hne) in Ha.
    cbn [bind] in Ha. rewrite (Hkeep _ s Hs) in Ha.
    rewrite (onSubmit_normal fetch data v _ Ha). reflexivity.
Qed.

Lemma plain_content_stored_verbatim_witness :
  result (onSubmit
            (answering (JObject [("content", JString "Hello");
                                 ("content_type", JString "x")]))
            sample_form idle)
  = Some (mkGeneratedContent Undefined (Str "x") Undefined "Hello").
Proof.
  apply (proj1 plain_content_stored_verbatim
           (answering (JObject [("content", JString "Hello");
                                ("content_type", JString "x")]))
           sample_form idle _
           [("content", JString "Hello"); ("content_type", JString "x")]
           "Hello" eq_refl eq_refl eq_refl eq_refl).
  left. discriminate.
Defined.

(** X16.  An object whose [raw] field is the empty string is not shown
    as an empty text: it is printed like an object without [raw], as
    pretty-printed JSON inside a fence labelled json. *)
Theorem displayContent_empty_raw (props : list (string * Json.json)) :
  lookup "raw" props = Str "" ->
  displayContent (Json (JObject props)) = Normal (fenced_json (JObject props)).
Proof.
  intros H. rewrite displayContent_object, H. reflexivity.
Qed.

Lemma displayContent_empty_raw_witness :
  displayContent (Json (JObject [("raw", JString "")]))
  = Normal (fenced_json (JObject [("raw", JString "")])).
Proof.
  apply (displayContent_empty_raw [("raw", JString "")]). reflexivity.
Defined.

(* ================================================================= *)
(** ** The copy button *)

(** X17.  The copy button writes the content as it was stored, not the
    text displayed: when the content holds a directive for the image
    address, what is copied still holds it and differs from what is
    shown.  When the clipboard rejects, nothing is written and
    "Failed to copy content." is shown. *)
Theorem copy_writes_stored_content :
  (forall writeText u content,
      u <> "" -> writeText content = Normal tt -> ~ no_occurrence u content ->
      output (handleCopyToClipboard writeText content) = Some content
      /\ processedContent (image u) content <> Normal content) /\
  (forall writeText content e,
      writeText content = Throw e ->
      handleCopyToClipboard writeText content
      = mkEffects None [toast_error "Failed to copy content."]).
Proof.
  split.
  - intros writeText u content Hu Hw Hocc. unfold handleCopyToClipboard.
    rewrite Hw. split; [reflexivity |].
    intros H. apply Hocc. exact (unchanged_no_occurrence u content Hu H).
  - intros writeText content e Hw. unfold handleCopyToClipboard.
    rewrite Hw. reflexivity.
Qed.

Lemma copy_writes_stored_content_witness :
  output (handleCopyToClipboard (fun _ => Normal tt) (directive "x" "u"))
  = Some (directive "x" "u")
  /\ processedContent (image "u") (directive "x" "u")
     <> Normal (directive "x" "u").
Proof.
  apply (proj1 copy_writes_stored_content
           (fun _ => Normal tt) "u" (directive "x" "u"));
    [discriminate | reflexivity |].
  intros H. apply (H "" "x" ""); reflexivity.
Defined.
